(** * LinkedIn company profile scraper: the extraction pipeline

    A shallow embedding of [src/extractors/utils_cleaner.py] and
    [src/extractors/linkedin_parser.py], and of what [src/runner.py]
    does to its inputs before it calls the scraper, and the properties
    of the extraction pipeline stated over it.

    Conventions of the embedding.
    - A Python [str] is a [string] whose characters are the code points
      0..255 (the Latin-1 repertoire), one [ascii] per code point.  The
      character classes below are Python's on that range.
    - A value decoded by [json.loads], and a value held by a record, is a
      [value]; a Company Record (the [dict] built by [_parse_company]) is
      a [gmap string value].
    - Code that can raise returns a [result]; [try]/[except] is
      [try_except].  Only subclasses of [Exception] are modelled.
    - The network, the random source, the HTML parser and the JSON decoder
      are the fields of a [world]; what a run has sent and slept is its
      [state].  A [float] is the rational it denotes and its arithmetic
      is exact: the backoff [backoff_factor * 2 ** (attempt - 1)] is exact
      in binary floating point, and the jitter is kept apart from it. *)

From Stdlib Require Import ZArith QArith Qround Lqa Ascii String DecimalString DecimalPos List Lia.
From stdpp Require Import base option list strings gmap.

Local Open Scope string_scope.
Local Open Scope Z_scope.

(** ** Python [str] primitives *)

Module Str.

Definition code (a : ascii) : N := N_of_ascii a.
Definition chr (n : N) : ascii := ascii_of_N n.

Definition in_range (lo hi : N) (a : ascii) : bool :=
  ((lo <=? code a) && (code a <=? hi))%N.

(** [str.isspace], also the class [\s] of [re] and the characters that
    [str.strip()] and [str.split()] treat as blanks. *)
Definition isspace (a : ascii) : bool :=
  in_range 9 13 a || in_range 28 32 a || (code a =? 133)%N || (code a =? 160)%N.

(** The class [\d] of [re]; the characters [int()] reads as digits. *)
Definition isdecimal (a : ascii) : bool := in_range 48 57 a.

(** The class [\w] of [re] (alphanumeric in the Unicode sense, or [_]). *)
Definition isword (a : ascii) : bool :=
  isdecimal a || in_range 65 90 a || (code a =? 95)%N || in_range 97 122 a
  || (code a =? 170)%N || in_range 178 179 a || (code a =? 181)%N
  || in_range 185 186 a || in_range 188 190 a
  || in_range 192 214 a || in_range 216 246 a || in_range 248 255 a.

Definition isprintable (a : ascii) : bool :=
  negb (in_range 0 31 a || in_range 127 160 a || (code a =? 173)%N).

Definition lower_char (a : ascii) : ascii :=
  if in_range 65 90 a || in_range 192 214 a || in_range 216 222 a
  then chr (code a + 32) else a.

(** [s.lower()] *)
Fixpoint lower (s : string) : string :=
  match s with
  | EmptyString => EmptyString
  | String a s' => String (lower_char a) (lower s')
  end.

(** [bool(s)] *)
Definition nonempty (s : string) : bool :=
  match s with EmptyString => false | String _ _ => true end.

Fixpoint startswith (p s : string) : bool :=
  match p, s with
  | EmptyString, _ => true
  | String a p', String b s' => if Ascii.eqb a b then startswith p' s' else false
  | String _ _, EmptyString => false
  end.

(** [p in s] *)
Fixpoint contains (p s : string) : bool :=
  startswith p s ||
  match s with
  | EmptyString => false
  | String _ s' => contains p s'
  end.

Fixpoint mem (a : ascii) (chars : string) : bool :=
  match chars with
  | EmptyString => false
  | String b chars' => Ascii.eqb a b || mem a chars'
  end.

Fixpoint lstrip_by (drop : ascii -> bool) (s : string) : string :=
  match s with
  | EmptyString => EmptyString
  | String a s' => if drop a then lstrip_by drop s' else s
  end.

Fixpoint rstrip_by (drop : ascii -> bool) (s : string) : string :=
  match s with
  | EmptyString => EmptyString
  | String a s' =>
      match rstrip_by drop s' with
      | EmptyString => if drop a then EmptyString else String a EmptyString
      | r => String a r
      end
  end.

(** [s.strip()] *)
Definition strip (s : string) : string := rstrip_by isspace (lstrip_by isspace s).

(** [s.rstrip(chars)] *)
Definition rstrip (chars s : string) : string := rstrip_by (fun a => mem a chars) s.

(** [s.replace(c, "")] for a one-character [c] *)
Fixpoint remove (c : ascii) (s : string) : string :=
  match s with
  | EmptyString => EmptyString
  | String a s' => if Ascii.eqb a c then remove c s' else String a (remove c s')
  end.

(** [re.compile(r"\s+").sub(" ", s)]: [in_run] tells that the previous
    character was a blank, already replaced. *)
Fixpoint sub_spaces (in_run : bool) (s : string) : string :=
  match s with
  | EmptyString => EmptyString
  | String a s' =>
      if isspace a
      then (if in_run then sub_spaces true s' else String " " (sub_spaces true s'))
      else String a (sub_spaces false s')
  end.

(** [s.split(c)] for a one-character separator: the fields, empty ones
    included. *)
Fixpoint split_on (c : ascii) (s : string) : list string :=
  match s with
  | EmptyString => [EmptyString]
  | String a s' =>
      match split_on c s' with
      | [] => [EmptyString]
      | field :: fields =>
          if Ascii.eqb a c then EmptyString :: field :: fields
          else String a field :: fields
      end
  end.

(** [s.split()]: the maximal runs of non-blank characters. *)
Fixpoint split_ws (s : string) : list string :=
  match s with
  | EmptyString => []
  | String a s' =>
      if isspace a then split_ws s'
      else match s' with
           | EmptyString => [String a EmptyString]
           | String b _ =>
               if isspace b then String a EmptyString :: split_ws s'
               else match split_ws s' with
                    | [] => [String a EmptyString]
                    | w :: ws => String a w :: ws
                    end
           end
  end.

(** [sep.join(parts)] *)
Fixpoint join (sep : string) (parts : list string) : string :=
  match parts with
  | [] => EmptyString
  | [p] => p
  | p :: rest => p +:+ sep +:+ join sep rest
  end.

End Str.

(** ** Python values, exceptions and results *)

(** The values [json.loads] produces and the values a record holds.  A
    [float] is carried as the text [repr] gives for it, which determines
    it. *)
#[warnings="-register-all"]
Inductive value : Type :=
| VNone
| VBool (b : bool)
| VInt (z : Z)
| VFloat (repr : string)
| VStr (s : string)
| VList (items : list value)
| VDict (entries : list (string * value)).

Inductive exn_class : Type :=
| RequestException | RuntimeError | ValueError | TypeError | OverflowError
| JSONDecodeError | RecursionError | FeatureNotFound | OtherException
| Exception.

Record exn : Type := Exn { exn_type : exn_class; exn_args : string }.

(** [isinstance(e, cls)]: every class derives from [Exception],
    [json.JSONDecodeError] and [bs4.FeatureNotFound] from [ValueError],
    [RecursionError] from [RuntimeError]. *)
Definition exn_isinstance (e : exn) (cls : exn_class) : bool :=
  match exn_type e, cls with
  | _, Exception => true
  | RequestException, RequestException | RuntimeError, RuntimeError
  | ValueError, ValueError | TypeError, TypeError | OverflowError, OverflowError
  | JSONDecodeError, JSONDecodeError | JSONDecodeError, ValueError
  | RecursionError, RecursionError | RecursionError, RuntimeError
  | FeatureNotFound, FeatureNotFound | FeatureNotFound, ValueError
  | OtherException, OtherException => true
  | _, _ => false
  end.

Inductive result (A : Type) : Type :=
| Ok (a : A)
| Raise (e : exn).
Arguments Ok {A} a.
Arguments Raise {A} e.

Definition bind {A B : Type} (r : result A) (k : A -> result B) : result B :=
  match r with
  | Ok a => k a
  | Raise e => Raise e
  end.

Notation "x <- r ;; k" := (bind r (fun x => k))
  (at level 100, r at next level, right associativity, only parsing).

(** [try: body / except (classes): handler] *)
Definition try_except {A : Type} (body : result A) (classes : list exn_class)
    (handler : exn -> result A) : result A :=
  match body with
  | Ok a => Ok a
  | Raise e => if existsb (exn_isinstance e) classes then handler e else Raise e
  end.

(** ** Builtins *)

Module Py.

(** [bool(v)] *)
Definition truthy (v : value) : bool :=
  match v with
  | VNone => false
  | VBool b => b
  | VInt z => negb (z =? 0)
  | VFloat r => negb (String.eqb r "0.0" || String.eqb r "-0.0")
  | VStr s => Str.nonempty s
  | VList items => match items with [] => false | _ => true end
  | VDict entries => match entries with [] => false | _ => true end
  end.

(** [a or b] *)
Definition or (a b : value) : value := if truthy a then a else b.

(** [d.get(key)] on a decoded object; the first entry of a key is its
    entry. *)
Fixpoint dict_get (d : list (string * value)) (key : string) : value :=
  match d with
  | [] => VNone
  | (k, v) :: d' => if String.eqb k key then v else dict_get d' key
  end.

Definition str_of_int (z : Z) : string := NilZero.string_of_int (Z.to_int z).

Definition hex_digit (n : N) : ascii :=
  if (n <? 10)%N then Str.chr (48 + n) else Str.chr (87 + n).

Definition double_quote : ascii := Str.chr 34.

(** One character of [repr(s)], inside the quotes [quote]. *)
Definition repr_char (quote a : ascii) : string :=
  if Ascii.eqb a quote || Ascii.eqb a "\" then String "\" (String a "")
  else if Ascii.eqb a (Str.chr 9) then "\t"
  else if Ascii.eqb a (Str.chr 10) then "\n"
  else if Ascii.eqb a (Str.chr 13) then "\r"
  else if Str.isprintable a then String a ""
  else String "\" (String "x" (String (hex_digit (Str.code a / 16))
                                 (String (hex_digit (Str.code a mod 16)) ""))).

Fixpoint repr_chars (quote : ascii) (s : string) : string :=
  match s with
  | EmptyString => EmptyString
  | String a s' => repr_char quote a +:+ repr_chars quote s'
  end.

(** [repr(s)] for a [str]: double quotes when [s] has a single quote and
    no double quote, single quotes otherwise. *)
Definition repr_str (s : string) : string :=
  let quote : ascii :=
    if Str.mem "'" s && negb (Str.mem double_quote s) then double_quote else "'"%char in
  String quote (repr_chars quote s) +:+ String quote "".

(** [repr(v)] *)
Fixpoint repr (v : value) : string :=
  match v with
  | VNone => "None"
  | VBool b => if b then "True" else "False"
  | VInt z => str_of_int z
  | VFloat r => r
  | VStr s => repr_str s
  | VList items => "[" +:+ Str.join ", " (map repr items) +:+ "]"
  | VDict entries =>
      "{" +:+ Str.join ", " (map (fun kv => repr_str kv.1 +:+ ": " +:+ repr kv.2) entries)
      +:+ "}"
  end.

(** [str(v)] *)
Definition str (v : value) : string :=
  match v with
  | VStr s => s
  | _ => repr v
  end.

(** [str(exc)] for an exception built from one message. *)
Definition str_exn (e : exn) : string := exn_args e.

(** [sys.int_info.default_max_str_digits] *)
Definition max_str_digits : nat := 4300.

Definition digit_value (a : ascii) : Z := Z.of_N (Str.code a) - 48.

(** The digits of an [int] literal: single underscores between digits
    are allowed.  [after_digit] tells that the previous character was a
    digit; the result is the value and the number of digits. *)
Fixpoint read_digits (after_digit : bool) (acc : Z) (n : nat) (s : string)
    : option (Z * nat) :=
  match s with
  | EmptyString => if after_digit then Some (acc, n) else None
  | String a s' =>
      if Str.isdecimal a then read_digits true (10 * acc + digit_value a) (S n) s'
      else if Ascii.eqb a "_" then
        (if after_digit then read_digits false acc n s' else None)
      else None
  end.

(** The blanks of the C locale, which the literal parser skips. *)
Definition c_isspace (a : ascii) : bool :=
  Str.in_range 9 13 a || (Str.code a =? 32)%N.

(** Before parsing, [int()] turns each blank above ASCII into a space
    and any other character above ASCII into [?]. *)
Definition to_ascii_char (a : ascii) : ascii :=
  if (Str.code a <? 127)%N then a
  else if Str.isspace a then " "%char else "?"%char.

Fixpoint to_ascii (s : string) : string :=
  match s with
  | EmptyString => EmptyString
  | String a s' => String (to_ascii_char a) (to_ascii s')
  end.

Definition invalid_literal (s : string) : exn :=
  Exn ValueError ("invalid literal for int() with base 10: " +:+ repr_str s).

(** The optional sign of a literal: whether it is [-], and what follows. *)
Definition split_sign (body : string) : bool * string :=
  match body with
  | String a rest =>
      if Ascii.eqb a "-" then (true, rest)
      else if Ascii.eqb a "+" then (false, rest)
      else (false, body)
  | EmptyString => (false, body)
  end.

(** [int(s)] for a [str] *)
Definition int (s : string) : result Z :=
  let body := Str.rstrip_by c_isspace (Str.lstrip_by c_isspace (to_ascii s)) in
  let '(negative, digits) := split_sign body in
  match read_digits false 0 0%nat digits with
  | Some (z, n) =>
      if (max_str_digits <? n)%nat
      then Raise (Exn ValueError "Exceeds the limit (4300 digits) for integer string conversion")
      else Ok (if negative then - z else z)
  | None => Raise (invalid_literal s)
  end.

End Py.

(** ** [utils_cleaner.py] *)

Definition opt_str (o : option string) : value :=
  match o with
  | Some s => VStr s
  | None => VNone
  end.

(** [clean_text(value)]: [None] for [VNone] and for text that is blank. *)
Definition clean_text (v : value) : option string :=
  match v with
  | VNone => None
  | _ =>
      let cleaned := Str.strip (Str.sub_spaces false (Py.str v)) in
      if Str.nonempty cleaned then Some cleaned else None
  end.

(** The [try] block of [safe_int], from the text [str(value)] on. *)
Definition int_of_text (text : string) : result value :=
  let text := Str.strip (Str.remove "," text) in
  if negb (Str.nonempty text) then Ok VNone
  else z <- Py.int text ;; Ok (VInt z).

(** [safe_int(value)]; [True] and [False] are instances of [int]. *)
Definition safe_int (v : value) : result value :=
  match v with
  | VNone => Ok VNone
  | VInt _ | VBool _ => Ok v
  | _ =>
      try_except (int_of_text (Py.str v))
        [ValueError; TypeError]
        (fun _ => Ok VNone)
  end.

(** [safe_str(value)] *)
Definition safe_str (v : value) : string :=
  match v with
  | VNone => ""
  | _ => Py.str v
  end.

(** The leftmost match of [\b(19\d{2}|20\d{2})\b] in [s]; [after_word]
    tells that the character before [s] is a word character. *)
Fixpoint search_year (after_word : bool) (s : string) : option string :=
  match s with
  | EmptyString => None
  | String a s' =>
      let here :=
        match s with
        | String c1 (String c2 (String d1 (String d2 rest))) =>
            negb after_word
            && ((Ascii.eqb c1 "1" && Ascii.eqb c2 "9") || (Ascii.eqb c1 "2" && Ascii.eqb c2 "0"))
            && Str.isdecimal d1 && Str.isdecimal d2
            && match rest with
               | EmptyString => true
               | String e _ => negb (Str.isword e)
               end
        | _ => false
        end in
      if here then Some (String.substring 0 4 s)
      else search_year (Str.isword a) s'
  end.

(** [extract_year(text)] *)
Definition extract_year (text : string) : result value :=
  if negb (Str.nonempty text) then Ok VNone
  else match search_year false text with
       | None => Ok VNone
       | Some group1 => safe_int (VStr group1)
       end.

(** ** External collaborators *)

(** A [<meta>] tag: its [name], [property] and [content] attributes. *)
Record meta : Type := Meta {
  meta_name : option string;
  meta_property : option string;
  meta_content : option string }.

(** What the parser reads of a parsed document. *)
Record BeautifulSoup : Type := Soup {
  (** [script.string or script.text] of each
      [<script type="application/ld+json">], in document order *)
  ld_json_scripts : list string;
  (** [soup.title.string], [None] also when there is no [<title>] *)
  title_string : option string;
  (** the [<meta>] tags, in document order *)
  meta_tags : list meta;
  (** [soup.get_text(" ", strip=True)] *)
  get_text : string }.

Record response : Type := Response { status_code : Z; text : string }.

Definition proxy_map : Type := list (string * string).

Record world : Type := World {
  (** the outcome of the [n]-th call of [session.get] of the run *)
  session_get : nat -> string -> Z -> option proxy_map -> result response;
  (** the [n]-th draw of [random.uniform(0, 0.5)] of the run *)
  random_uniform : nat -> Q;
  (** [BeautifulSoup(html, "lxml")] *)
  make_soup : string -> result BeautifulSoup;
  (** [json.loads(txt)] *)
  json_loads : string -> result value }.

(** What a run has done so far: the number of requests sent; for each
    [time.sleep(sleep_for)] that returned, the two summands of
    [sleep_for], the backoff and the jitter, oldest first; and the number
    of draws of [random.uniform] made. *)
Record state : Type := State {
  requests : nat;
  sleeps : list (Q * Q);
  draws : nat }.

Definition initial_state : state := State 0 [] 0.

(** ** [linkedin_parser.py] *)

Record LinkedInCompanyScraper : Type := Scraper {
  timeout : Z;
  max_retries : Z;
  backoff_factor : Q;
  user_agent : string;
  proxy_groups : option (list (string * proxy_map)) }.

Definition default_scraper : LinkedInCompanyScraper :=
  Scraper 15 3 (3 # 2)
    "Mozilla/5.0 (Windows NT 10.0; Win64; x64) AppleWebKit/537.36 (KHTML, like Gecko) Chrome/120.0 Safari/537.36"
    None.

Fixpoint assoc_get {A : Type} (d : list (string * A)) (key : string) : option A :=
  match d with
  | [] => None
  | (k, v) :: d' => if String.eqb k key then Some v else assoc_get d' key
  end.

Definition _resolve_proxies (self : LinkedInCompanyScraper) (proxy_group : option string)
    : option proxy_map :=
  match proxy_group, proxy_groups self with
  | Some group, Some ((_ :: _) as groups) =>
      if Str.nonempty group then
        match assoc_get groups group with
        | Some ((_ :: _) as proxies) => Some proxies
        | _ => None
        end
      else None
  | _, _ => None
  end.

(** [self.backoff_factor * (2 ** (attempt - 1))]: the power is an [int],
    which the product turns into a [float]; from [2 ** 1024] on that
    raises. *)
Definition backoff_delay (self : LinkedInCompanyScraper) (attempt : Z) : result Q :=
  if 1024 <=? attempt - 1
  then Raise (Exn OverflowError "int too large to convert to float")
  else Ok (Qmult (backoff_factor self) (inject_Z (2 ^ (attempt - 1)))).

(** [time.sleep(secs)]: the duration is turned into a count of
    nanoseconds, rounded away from zero.  [time.sleep] raises
    [OverflowError] when the count does not fit 64 bits, and [ValueError]
    when it is negative; the messages are those of CPython 3.11.  Where
    the count is within a rounding error of [2 ** 63], the rounding of
    the binary product decides, which is not modelled. *)
Definition time_sleep (secs : Q) : result unit :=
  let ns := Qmult secs (inject_Z (10 ^ 9)) in
  let count := if Qle_bool 0%Q ns then Qceiling ns else Qfloor ns in
  if (count <? - 2 ^ 63) || (2 ^ 63 <=? count)
  then Raise (Exn OverflowError "timestamp too large to convert to C _PyTime_t")
  else if count <? 0
  then Raise (Exn ValueError "sleep length must be non-negative")
  else Ok tt.

(** Lines 111-112: the product, then the draw of the jitter, then
    [time.sleep] of their sum. *)
Definition sleep_backoff (w : world) (self : LinkedInCompanyScraper) (attempt : Z)
    (st : state) : result unit * state :=
  match backoff_delay self attempt with
  | Raise exc => (Raise exc, st)
  | Ok delay =>
      let jitter := random_uniform w (draws st) in
      match time_sleep (Qplus delay jitter) with
      | Raise exc => (Raise exc, State (requests st) (sleeps st) (S (draws st)))
      | Ok _ =>
          (Ok tt, State (requests st) (sleeps st ++ [(delay, jitter)]) (S (draws st)))
      end
  end.

(** The loop of [_fetch_company_page] over the attempts that remain, and
    what follows the loop.  An exception of the sleep is raised outside
    the [try] and leaves the function. *)
Fixpoint fetch_attempts (w : world) (self : LinkedInCompanyScraper) (url : string)
    (proxies : option proxy_map) (attempts : list Z) (last_exc : option exn)
    (st : state) : result string * state :=
  match attempts with
  | [] =>
      (match last_exc with
       | Some exc => Raise exc
       | None => Raise (Exn RuntimeError ("Failed to fetch " +:+ url))
       end, st)
  | attempt :: rest =>
      let st1 := State (S (requests st)) (sleeps st) (draws st) in
      match session_get w (requests st) url (timeout self) proxies with
      | Ok resp =>
          if (200 <=? status_code resp) && (status_code resp <? 300)
          then (Ok (text resp), st1)
          else match sleep_backoff w self attempt st1 with
               | (Ok _, st2) => fetch_attempts w self url proxies rest last_exc st2
               | (Raise refusal, st2) => (Raise refusal, st2)
               end
      | Raise exc =>
          if exn_isinstance exc RequestException
          then match sleep_backoff w self attempt st1 with
               | (Ok _, st2) => fetch_attempts w self url proxies rest (Some exc) st2
               | (Raise refusal, st2) => (Raise refusal, st2)
               end
          else (Raise exc, st1)
      end
  end.

Definition _fetch_company_page (w : world) (self : LinkedInCompanyScraper) (url : string)
    (proxies : option proxy_map) (st : state) : result string * state :=
  fetch_attempts w self url proxies (seqZ 1 (max_retries self)) None st.

(** A record under construction: the [dict] that [_parse_company] fills. *)
Abbreviation record := (gmap string value).

(** [target.get(key)] *)
Definition get (target : record) (key : string) : value :=
  default VNone (target !! key).

(** [not target.get(key)] *)
Definition unset (target : record) (key : string) : bool :=
  negb (Py.truthy (get target key)).

(** [getattr(v, "name", None)]: no value that [json.loads] produces
    ([dict], [list], [str], [int], [float], [bool], [None]) has an
    attribute [name]. *)
Definition getattr_name (v : value) : value := VNone.

(** *** [_apply_json_ld]: one definition per block of the function *)

Definition is_company_type (node_type : string) : bool :=
  Str.contains "organization" node_type || Str.contains "corp" node_type
  || Str.contains "company" node_type.

(** lines 185-187 *)
Definition ld_name (node : list (string * value)) (target : record) : record :=
  match clean_text (Py.dict_get node "name") with
  | Some name => <["company_name" := VStr name]> target
  | None => target
  end.

(** lines 189-191 *)
Definition ld_url (node : list (string * value)) (target : record) : record :=
  match clean_text (Py.dict_get node "url") with
  | Some url => <["company_website" := VStr url]> target
  | None => target
  end.

(** lines 194-196 *)
Definition address_object (node : list (string * value)) : value :=
  let address := Py.dict_get node "address" in
  match address with
  | VList (first :: _) => first
  | _ => address
  end.

(** lines 204-208: the argument of [clean_text] *)
Definition country_value (address : list (string * value)) : value :=
  match Py.dict_get address "addressCountry" with
  | VStr country => VStr country
  | country => getattr_name country
  end.

(** lines 198-208 *)
Definition ld_address (node : list (string * value)) (target : record) : record :=
  match address_object node with
  | VDict address =>
      let target := <["company_address_type" := opt_str (clean_text (Py.dict_get address "@type"))]> target in
      let target := <["company_street" := opt_str (clean_text (Py.dict_get address "streetAddress"))]> target in
      let target := <["company_locality" := opt_str (clean_text (Py.dict_get address "addressLocality"))]> target in
      let target := <["company_region" := opt_str (clean_text (Py.dict_get address "addressRegion"))]> target in
      let target := <["company_postal_code" := opt_str (clean_text (Py.dict_get address "postalCode"))]> target in
      <["company_country" := opt_str (clean_text (country_value address))]> target
  | _ => target
  end.

(** lines 210-212 *)
Definition ld_description (node : list (string * value)) (target : record) : record :=
  match clean_text (Py.dict_get node "description") with
  | Some description =>
      if unset target "company_about_us"
      then <["company_about_us" := VStr description]> target
      else target
  | None => target
  end.

(** lines 215-217 *)
Definition ld_employees (node : list (string * value)) (target : record) : result record :=
  let employees := Py.or (Py.dict_get node "numberOfEmployees") (Py.dict_get node "employees") in
  if Py.truthy employees && unset target "company_employees_on_linkedin"
  then count <- safe_int employees ;;
       Ok (<["company_employees_on_linkedin" := count]> target)
  else Ok target.

(** lines 219-224 *)
Definition ld_logo (node : list (string * value)) (target : record) : record :=
  if unset target "company_logo" then
    match Py.dict_get node "logo" with
    | VDict logo => <["company_logo" := opt_str (clean_text (Py.dict_get logo "url"))]> target
    | logo => <["company_logo" := opt_str (clean_text logo)]> target
    end
  else target.

(** lines 226-229 *)
Definition ld_industry (node : list (string * value)) (target : record) : record :=
  if unset target "company_industry" then
    match clean_text (Py.dict_get node "industry") with
    | Some industry => <["company_industry" := VStr industry]> target
    | None => target
    end
  else target.

(** lines 231-234 *)
Definition ld_founded (node : list (string * value)) (target : record) : result record :=
  if unset target "company_founded" then
    founded <- extract_year
                 (safe_str (Py.or (Py.dict_get node "foundingDate")
                                  (Py.dict_get node "foundingYear"))) ;;
    Ok (if Py.truthy founded then <["company_founded" := founded]> target else target)
  else Ok target.

(** lines 236-239 *)
Definition ld_size (node : list (string * value)) (target : record) : record :=
  if unset target "company_size" then
    let employees_range :=
      Py.or (Py.dict_get node "employeesRange") (Py.dict_get node "employeeRange") in
    if Py.truthy employees_range
    then <["company_size" := opt_str (clean_text employees_range)]> target
    else target
  else target.

(** lines 241-248 *)
Definition ld_headquarters (node : list (string * value)) (target : record) : record :=
  if unset target "company_headquarters" then
    match Py.or (Py.dict_get node "foundingLocation") (Py.dict_get node "location") with
    | VDict hq =>
        <["company_headquarters" :=
            opt_str (clean_text
                       (Py.or (Py.dict_get hq "name")
                              (Py.or (Py.dict_get hq "addressLocality")
                                     (Py.dict_get hq "addressRegion"))))]> target
    | VStr hq => <["company_headquarters" := opt_str (clean_text (VStr hq))]> target
    | _ => target
    end
  else target.

(** [[s for s in (clean_text(x) for x in specialties) if s]] *)
Definition cleaned_items (specialties : list value) : list string :=
  omap clean_text specialties.

(** lines 250-257 *)
Definition ld_specialties (node : list (string * value)) (target : record) : record :=
  if unset target "company_specialties" then
    match Py.or (Py.dict_get node "knowsAbout")
                (Py.or (Py.dict_get node "specialty") (Py.dict_get node "specialties")) with
    | VList specialties =>
        <["company_specialties" := VStr (Str.join ", " (cleaned_items specialties))]> target
    | VStr specialties =>
        <["company_specialties" := opt_str (clean_text (VStr specialties))]> target
    | _ => target
    end
  else target.

Definition _apply_json_ld (node : list (string * value)) (target : record) : result record :=
  let node_type := Str.lower (safe_str (Py.dict_get node "@type")) in
  if negb (is_company_type node_type) then Ok target
  else
    let target := ld_name node target in
    let target := ld_url node target in
    let target := ld_address node target in
    let target := ld_description node target in
    target <- ld_employees node target ;;
    let target := ld_logo node target in
    let target := ld_industry node target in
    target <- ld_founded node target ;;
    let target := ld_size node target in
    let target := ld_headquarters node target in
    let target := ld_specialties node target in
    Ok target.

(** *** [_parse_from_json_ld] *)

(** [for entry in parsed: if isinstance(entry, dict): ...] *)
Fixpoint apply_entries (entries : list value) (target : record) : result record :=
  match entries with
  | [] => Ok target
  | VDict entry :: rest =>
      target <- _apply_json_ld entry target ;; apply_entries rest target
  | _ :: rest => apply_entries rest target
  end.

(** The [try] block of the loop: [None] stands for [continue]. *)
Definition load_script (w : world) (txt : string) : result (option value) :=
  try_except
    (if negb (Str.nonempty txt) then Ok None
     else parsed <- json_loads w txt ;; Ok (Some parsed))
    [JSONDecodeError]
    (fun _ => Ok None).

Fixpoint apply_scripts (w : world) (scripts : list string) (target : record)
    : result record :=
  match scripts with
  | [] => Ok target
  | txt :: rest =>
      parsed <- load_script w txt ;;
      match parsed with
      | Some (VList entries) =>
          target <- apply_entries entries target ;; apply_scripts w rest target
      | Some (VDict node) =>
          target <- _apply_json_ld node target ;; apply_scripts w rest target
      | _ => apply_scripts w rest target
      end
  end.

Definition _parse_from_json_ld (w : world) (soup : BeautifulSoup) (target : record)
    : result record :=
  apply_scripts w (ld_json_scripts soup) target.

(** *** [_find_meta_content] and [_extract_number_near_keyword] *)

(** [soup.find("meta", attrs={attr: key})] *)
Definition find_meta (soup : BeautifulSoup) (attr : meta -> option string) (key : string)
    : option meta :=
  List.find (fun tag => match attr tag with
                        | Some v => String.eqb v key
                        | None => false
                        end) (meta_tags soup).

Fixpoint _find_meta_content (soup : BeautifulSoup) (keys : list string) : option string :=
  match keys with
  | [] => None
  | key :: rest =>
      let tag :=
        match find_meta soup meta_name key with
        | Some tag => Some tag
        | None => find_meta soup meta_property key
        end in
      match tag with
      | Some (Meta _ _ (Some content)) =>
          if Str.nonempty content then Some content else _find_meta_content soup rest
      | _ => _find_meta_content soup rest
      end
  end.

(** The characters of [rstrip("+·")]: [+] and the middle dot U+00B7. *)
Definition suffix_chars : string := String "+" (String (Str.chr 183) "").

(** The loop of [_extract_number_near_keyword]; [prev] is [tokens[i - 1]],
    [None] at [i = 0]. *)
Fixpoint number_before (keyword : string) (prev : option string) (tokens : list string)
    : result value :=
  match tokens with
  | [] => Ok VNone
  | token :: rest =>
      match prev with
      | Some candidate =>
          if Str.contains keyword (Str.lower token) then
            value <- safe_int (VStr (Str.rstrip suffix_chars candidate)) ;;
            match value with
            | VNone => number_before keyword (Some token) rest
            | _ => Ok value
            end
          else number_before keyword (Some token) rest
      | None => number_before keyword (Some token) rest
      end
  end.

Definition _extract_number_near_keyword (text keyword : string) : result value :=
  number_before (Str.lower keyword) None (Str.split_ws text).

(** *** [_parse_from_meta_and_title]: one definition per block *)

(** [[p.strip() for p in title.split("|") if p.strip()]] *)
Definition title_pieces (title : string) : list string :=
  List.filter Str.nonempty (map Str.strip (Str.split_on "|" title)).

(** lines 261-268 *)
Definition meta_name_from_title (soup : BeautifulSoup) (target : record) : record :=
  if unset target "company_name" then
    match title_string soup with
    | Some raw =>
        if Str.nonempty raw then
          match clean_text (VStr raw) with
          | Some title =>
              match title_pieces title with
              | first :: _ => <["company_name" := VStr first]> target
              | [] => target
              end
          | None => target
          end
        else target
    | None => target
    end
  else target.

(** lines 271-276 *)
Definition meta_description (soup : BeautifulSoup) (target : record) : record :=
  if unset target "company_about_us" then
    match _find_meta_content soup ["description"; "og:description"] with
    | Some desc =>
        let target := <["company_about_us" := opt_str (clean_text (VStr desc))]> target in
        if unset target "company_twitter_description"
        then <["company_twitter_description" := opt_str (clean_text (VStr desc))]> target
        else target
    | None => target
    end
  else target.

(** lines 279-282 *)
Definition meta_logo (soup : BeautifulSoup) (target : record) : record :=
  if unset target "company_logo" then
    match _find_meta_content soup ["og:logo"; "og:image"; "twitter:image"] with
    | Some logo => <["company_logo" := opt_str (clean_text (VStr logo))]> target
    | None => target
    end
  else target.

(** lines 285-288 *)
Definition meta_cover (soup : BeautifulSoup) (target : record) : record :=
  if unset target "company_cover_image" then
    match _find_meta_content soup ["og:image"; "twitter:image"] with
    | Some cover => <["company_cover_image" := opt_str (clean_text (VStr cover))]> target
    | None => target
    end
  else target.

(** [a != b] on the values a record holds and a [str]. *)
Definition differs (headline : string) (v : value) : bool :=
  match v with
  | VStr s => negb (String.eqb headline s)
  | _ => true
  end.

(** lines 291-296 *)
Definition meta_slogan (soup : BeautifulSoup) (target : record) : record :=
  if unset target "company_slogan" then
    match _find_meta_content soup ["og:title"; "twitter:title"] with
    | Some headline =>
        match clean_text (VStr headline) with
        | Some headline =>
            if Py.truthy (get target "company_name")
               && differs headline (get target "company_name")
            then <["company_slogan" := VStr headline]> target
            else target
        | None => target
        end
    | None => target
    end
  else target.

(** lines 303-306 and 308-311, for [field] and its [keyword] *)
Definition meta_counter (body_text field keyword : string) (target : record)
    : result record :=
  if unset target field then
    found <- _extract_number_near_keyword body_text keyword ;;
    Ok (match found with
        | VNone => target
        | _ => <[field := found]> target
        end)
  else Ok target.

Definition _parse_from_meta_and_title (soup : BeautifulSoup) (target : record)
    : result record :=
  let target := meta_name_from_title soup target in
  let target := meta_description soup target in
  let target := meta_logo soup target in
  let target := meta_cover soup target in
  let target := meta_slogan soup target in
  let body_text := get_text soup in
  if Str.nonempty body_text then
    target <- meta_counter body_text "company_followers_on_linkedin" "followers" target ;;
    meta_counter body_text "company_employees_on_linkedin" "employees" target
  else Ok target.

(** *** [_parse_company] *)

(** The field names of the [dict] literal of [_parse_company]. *)
Definition company_fields : list string :=
  [ "company_name"; "company_profile"; "company_website"; "company_address_type";
    "company_street"; "company_locality"; "company_region"; "company_postal_code";
    "company_country"; "company_employees_on_linkedin"; "company_followers_on_linkedin";
    "company_logo"; "company_cover_image"; "company_slogan";
    "company_twitter_description"; "company_about_us"; "company_industry";
    "company_size"; "company_headquarters"; "company_organization_type";
    "company_founded"; "company_specialties" ].

(** The [dict] literal: every field [None], [company_profile] the URL. *)
Definition empty_company (url : string) : record :=
  <["company_profile" := VStr url]>
    (list_to_map (map (fun field => (field, VNone)) company_fields)).

Definition _parse_company (w : world) (html url : string) : result record :=
  soup <- make_soup w html ;;
  let data := empty_company url in
  data <- _parse_from_json_ld w soup data ;;
  data <- _parse_from_meta_and_title soup data ;;
  Ok data.

(** *** [scrape_profiles] *)

(** The [dict] appended by the [except] branch; [safe_str(exc)] of an
    exception is [str(exc)]. *)
Definition skeleton (url : string) (exc : exn) : record :=
  list_to_map [ ("company_name", VNone);
                ("company_profile", VStr url);
                ("error", VStr (Py.str_exn exc)) ].

(** The body of the loop for one URL: the [try] block appends the parsed
    company, the [except Exception] branch the skeleton. *)
Definition scrape_one (w : world) (self : LinkedInCompanyScraper)
    (proxies : option proxy_map) (url : string) (results : list record) (st : state)
    : result (list record) * state :=
  let '(html, st) := _fetch_company_page w self url proxies st in
  (try_except
     (html <- html ;;
      company <- _parse_company w html url ;;
      Ok (results ++ [company])%list)
     [Exception]
     (fun exc => Ok (results ++ [skeleton url exc])%list),
   st).

Fixpoint scrape_loop (w : world) (self : LinkedInCompanyScraper)
    (proxies : option proxy_map) (urls : list string) (results : list record)
    (st : state) : result (list record) * state :=
  match urls with
  | [] => (Ok results, st)
  | url :: rest =>
      match scrape_one w self proxies url results st with
      | (Ok results, st) => scrape_loop w self proxies rest results st
      | (Raise exc, st) => (Raise exc, st)
      end
  end.

Definition scrape_profiles (w : world) (self : LinkedInCompanyScraper)
    (urls : list string) (proxy_group : option string) (st : state)
    : result (list record) * state :=
  match urls with
  | [] => (Ok [], st)
  | _ => scrape_loop w self (_resolve_proxies self proxy_group) urls [] st
  end.

(** ** [runner.py] *)

(** [resolve_output_formats(input_data, settings, cli_formats)] *)
Definition resolve_output_formats (input_data settings : list (string * value))
    (cli_formats : option (list string)) : list string :=
  match cli_formats with
  | Some ((_ :: _) as formats) => map Str.lower formats
  | _ =>
      match assoc_get input_data "output_formats" with
      | Some (VList formats) => map (fun f => Str.lower (Py.str f)) formats
      | _ =>
          let output_cfg :=
            match assoc_get settings "output" with
            | Some cfg => cfg
            | None => VDict []
            end in
          match output_cfg with
          | VDict output_cfg =>
              match Py.dict_get output_cfg "formats" with
              | VList formats => map (fun f => Str.lower (Py.str f)) formats
              | _ => ["json"; "csv"]
              end
          | _ => ["json"; "csv"]
          end
      end
  end.

(** Lines 183-193 of [main]: the URLs handed to [scrape_profiles], [None]
    where [main] logs an error and returns 1. *)
Definition input_urls (input_data : list (string * value)) : option (list string) :=
  match Py.or (Py.dict_get input_data "company_profile_urls")
              (Py.dict_get input_data "urls") with
  | VList ((_ :: _) as urls) =>
      match List.filter Str.nonempty (map (fun u => Str.strip (Py.str u)) urls) with
      | [] => None
      | urls => Some urls
      end
  | _ => None
  end.

(** Lines 195-197 of [main]: the proxy group handed to [scrape_profiles]. *)
Definition input_proxy_group (input_data : list (string * value)) : option string :=
  match Py.dict_get input_data "proxy_group" with
  | VNone => None
  | proxy_group =>
      let stripped := Str.strip (Py.str proxy_group) in
      if Str.nonempty stripped then Some stripped else None
  end.

(** * Vocabulary of the statements *)

Fixpoint any_char (P : ascii -> bool) (s : string) : bool :=
  match s with
  | EmptyString => false
  | String a s' => P a || any_char P s'
  end.

Fixpoint all_char (P : ascii -> bool) (s : string) : bool :=
  match s with
  | EmptyString => true
  | String a s' => P a && all_char P s'
  end.

(** Spec side of the numeric coercion: numeric text, which is the text of
    a whole number.  A group is one or more decimal digits; a number is
    written with a sign, if any, and one or more groups, with one
    underscore between two groups (["1234"], ["-7"], ["1_000"]). *)
Definition digit_group (g : string) : bool :=
  Str.nonempty g && all_char Str.isdecimal g.

Definition is_sign (sign : string) : bool :=
  String.eqb sign "" || String.eqb sign "+" || String.eqb sign "-".

Definition number_text (sign : string) (groups : list string) : string :=
  sign +:+ Str.join "_" groups.

(** Text is numeric when it is the text of a number. *)
Definition numeric (text : string) : Prop :=
  exists sign groups,
    is_sign sign = true /\ groups <> [] /\ forallb digit_group groups = true
    /\ text = number_text sign groups.

(** The digits of the groups, in order. *)
Definition digits_of (groups : list string) : string :=
  fold_right String.append "" groups.

(** The number that the text writes, in base ten. *)
Definition number_value (sign : string) (groups : list string) : Z :=
  let magnitude :=
    match NilEmpty.uint_of_string (digits_of groups) with
    | Some d => Z.of_uint d
    | None => 0
    end in
  if String.eqb sign "-" then - magnitude else magnitude.

(** A character of the text of a number. *)
Definition number_char (a : ascii) : bool :=
  Str.isdecimal a || Ascii.eqb a "_" || Ascii.eqb a "+" || Ascii.eqb a "-".

(** The value of a call that returns. *)
Definition value_of (r : result value) : value :=
  match r with
  | Ok v => v
  | Raise _ => VNone
  end.

(** What one write does to a field: [offer] is the value a node has for
    the field, if it has one; the field takes it when the write is
    unconditional ([overwrite]) or when the field is unset. *)
Definition upd (overwrite : bool) (offer old : option value) : option value :=
  match offer with
  | Some v => if overwrite || negb (Py.truthy (default VNone old)) then Some v else old
  | None => old
  end.

(** The fields that [_apply_json_ld] assigns without looking at their
    current value. *)
Definition ld_overwritten : list string :=
  [ "company_name"; "company_website"; "company_address_type"; "company_street";
    "company_locality"; "company_region"; "company_postal_code"; "company_country" ].

Definition ld_overwrites (key : string) : bool := existsb (String.eqb key) ld_overwritten.

(** The fields that [_apply_json_ld] assigns only when they are unset. *)
Definition ld_guarded : list string :=
  [ "company_about_us"; "company_employees_on_linkedin"; "company_logo";
    "company_industry"; "company_founded"; "company_size"; "company_headquarters";
    "company_specialties" ].

(** The value the address object of [node] has for an address field. *)
Definition address_offer (node : list (string * value)) (key : string) : option value :=
  match address_object node with
  | VDict address =>
      if String.eqb key "company_address_type"
      then Some (opt_str (clean_text (Py.dict_get address "@type")))
      else if String.eqb key "company_street"
      then Some (opt_str (clean_text (Py.dict_get address "streetAddress")))
      else if String.eqb key "company_locality"
      then Some (opt_str (clean_text (Py.dict_get address "addressLocality")))
      else if String.eqb key "company_region"
      then Some (opt_str (clean_text (Py.dict_get address "addressRegion")))
      else if String.eqb key "company_postal_code"
      then Some (opt_str (clean_text (Py.dict_get address "postalCode")))
      else if String.eqb key "company_country"
      then Some (opt_str (clean_text (country_value address)))
      else None
  | _ => None
  end.

Definition employees_offer (node : list (string * value)) : option value :=
  let employees := Py.or (Py.dict_get node "numberOfEmployees") (Py.dict_get node "employees") in
  if Py.truthy employees then Some (value_of (safe_int employees)) else None.

Definition logo_offer (node : list (string * value)) : option value :=
  Some match Py.dict_get node "logo" with
       | VDict logo => opt_str (clean_text (Py.dict_get logo "url"))
       | logo => opt_str (clean_text logo)
       end.

Definition founded_offer (node : list (string * value)) : option value :=
  let founded :=
    value_of (extract_year (safe_str (Py.or (Py.dict_get node "foundingDate")
                                            (Py.dict_get node "foundingYear")))) in
  if Py.truthy founded then Some founded else None.

Definition size_offer (node : list (string * value)) : option value :=
  let employees_range :=
    Py.or (Py.dict_get node "employeesRange") (Py.dict_get node "employeeRange") in
  if Py.truthy employees_range then Some (opt_str (clean_text employees_range)) else None.

Definition headquarters_offer (node : list (string * value)) : option value :=
  match Py.or (Py.dict_get node "foundingLocation") (Py.dict_get node "location") with
  | VDict hq =>
      Some (opt_str (clean_text
                       (Py.or (Py.dict_get hq "name")
                              (Py.or (Py.dict_get hq "addressLocality")
                                     (Py.dict_get hq "addressRegion")))))
  | VStr hq => Some (opt_str (clean_text (VStr hq)))
  | _ => None
  end.

Definition specialties_offer (node : list (string * value)) : option value :=
  match Py.or (Py.dict_get node "knowsAbout")
              (Py.or (Py.dict_get node "specialty") (Py.dict_get node "specialties")) with
  | VList specialties => Some (VStr (Str.join ", " (cleaned_items specialties)))
  | VStr specialties => Some (opt_str (clean_text (VStr specialties)))
  | _ => None
  end.

(** The value [node] has for the field [key], read off [_apply_json_ld]. *)
Definition ld_offer (node : list (string * value)) (key : string) : option value :=
  if negb (is_company_type (Str.lower (safe_str (Py.dict_get node "@type")))) then None
  else if String.eqb key "company_name" then VStr <$> clean_text (Py.dict_get node "name")
  else if String.eqb key "company_website" then VStr <$> clean_text (Py.dict_get node "url")
  else if String.eqb key "company_about_us"
  then VStr <$> clean_text (Py.dict_get node "description")
  else if String.eqb key "company_employees_on_linkedin" then employees_offer node
  else if String.eqb key "company_logo" then logo_offer node
  else if String.eqb key "company_industry"
  then VStr <$> clean_text (Py.dict_get node "industry")
  else if String.eqb key "company_founded" then founded_offer node
  else if String.eqb key "company_size" then size_offer node
  else if String.eqb key "company_headquarters" then headquarters_offer node
  else if String.eqb key "company_specialties" then specialties_offer node
  else address_offer node key.

(** The field of [after] at [key] results from the field of [before] by
    the writes [offers], oldest first. *)
Definition written_by (offers : list (string -> option value)) (before after : record)
    : Prop :=
  forall key,
    after !! key = fold_left (fun old offer => upd (ld_overwrites key) (offer key) old)
                     offers (before !! key).

(** The fields that [_parse_from_meta_and_title] may assign. *)
Definition meta_fields : list string :=
  [ "company_name"; "company_about_us"; "company_twitter_description"; "company_logo";
    "company_cover_image"; "company_slogan"; "company_followers_on_linkedin";
    "company_employees_on_linkedin" ].

(** [after] is [before] but for fields among [fields] that were unset in
    [before]; none of them became the empty string. *)
Definition fills (fields : list string) (before after : record) : Prop :=
  forall key,
    after !! key = before !! key
    \/ (unset before key = true /\ In key fields
        /\ exists v, after !! key = Some v /\ v <> VStr "").

(** The call [r] returns a record whose field [key] holds [v]. *)
Definition returns_with (r : result record) (key : string) (v : value) : Prop :=
  match r with
  | Ok t => t !! key = Some v
  | Raise _ => False
  end.

(** The call [r] returns. *)
Definition returns {A : Type} (r : result A) : bool :=
  match r with
  | Ok _ => true
  | Raise _ => false
  end.

(** The record that [scrape_profiles] appends for [url], given the
    outcome of the fetch. *)
Definition record_for (w : world) (url : string) (fetched : result string) : record :=
  match (html <- fetched ;; _parse_company w html url) with
  | Ok company => company
  | Raise exc => skeleton url exc
  end.

(** The records of a batch and the state it ends in. *)
Fixpoint batch (w : world) (self : LinkedInCompanyScraper) (proxies : option proxy_map)
    (urls : list string) (st : state) : list record * state :=
  match urls with
  | [] => ([], st)
  | url :: rest =>
      let fetched := _fetch_company_page w self url proxies st in
      let others := batch w self proxies rest fetched.2 in
      (record_for w url fetched.1 :: others.1, others.2)
  end.

(** The attempt that sends the [n]-th request of the run fails: the
    request raises a [RequestException], or the status of the response is
    not in [200, 300). *)
Definition attempt_fails (w : world) (self : LinkedInCompanyScraper) (url : string)
    (proxies : option proxy_map) (n : nat) : bool :=
  match session_get w n url (timeout self) proxies with
  | Ok resp => negb ((200 <=? status_code resp) && (status_code resp <? 300))
  | Raise exc => exn_isinstance exc RequestException
  end.

(** The sleep that follows the attempt [attempt], with the jitter
    [jitter]: its outcome. *)
Definition backoff_sleep (self : LinkedInCompanyScraper) (attempt : Z) (jitter : Q)
    : result unit :=
  delay <- backoff_delay self attempt ;; time_sleep (Qplus delay jitter).

(** The fetch ends with [out] at the attempt that sends the [n]-th request
    of the run, where [sleep] is the outcome of the sleep that follows the
    attempt if it fails: a response with a status in [200, 300) is
    returned; an exception of the transport that is not a
    [RequestException] is raised; after a failed attempt, the exception of
    a refused sleep is raised. *)
Definition ends_at (w : world) (self : LinkedInCompanyScraper) (url : string)
    (proxies : option proxy_map) (n : nat) (sleep : result unit) (out : result string)
    : Prop :=
  match session_get w n url (timeout self) proxies with
  | Ok resp =>
      if (200 <=? status_code resp) && (status_code resp <? 300)
      then out = Ok (text resp)
      else exists refusal, sleep = Raise refusal /\ out = Raise refusal
  | Raise exc =>
      if exn_isinstance exc RequestException
      then exists refusal, sleep = Raise refusal /\ out = Raise refusal
      else out = Raise exc
  end.

(** The sleep after the attempt [k + 1] of a fetch that starts when
    [drawn] draws of jitter were made: its backoff and its jitter. *)
Definition backoff_entry (w : world) (self : LinkedInCompanyScraper) (drawn k : nat)
    : Q * Q :=
  (Qmult (backoff_factor self) (inject_Z (2 ^ Z.of_nat k)), random_uniform w (drawn + k)%nat).

(** The seconds slept so far, jitter excluded. *)
Definition total_backoff (st : state) : Q :=
  fold_right Qplus 0%Q (map fst (sleeps st)).

(** The blanks of [s] are single spaces between other characters:
    [after_blank] tells that the character before [s] is a blank. *)
Fixpoint collapsed (after_blank : bool) (s : string) : bool :=
  match s with
  | EmptyString => true
  | String a s' =>
      if Str.isspace a
      then Ascii.eqb a " " && negb after_blank && collapsed true s'
      else collapsed false s'
  end.

(** [s] is empty or starts with a character that [drop] keeps. *)
Definition head_kept (drop : ascii -> bool) (s : string) : bool :=
  match s with
  | EmptyString => true
  | String a _ => negb (drop a)
  end.

(** An entry of a decoded list that [_apply_json_ld] acts on: an object
    whose type names an organization, a corporation or a company. *)
Definition candidate_entry (entry : value) : bool :=
  match entry with
  | VDict node => is_company_type (Str.lower (safe_str (Py.dict_get node "@type")))
  | _ => false
  end.

(** A script that the scan passes over: its text is empty, or is not
    JSON, or is the JSON of a scalar. *)
Definition inert_script (w : world) (txt : string) : bool :=
  negb (Str.nonempty txt)
  || match json_loads w txt with
     | Ok (VList _) | Ok (VDict _) => false
     | Ok _ => true
     | Raise exc => exn_isinstance exc JSONDecodeError
     end.

(** What a field of a parsed record may hold: the counters a number, the
    year an integer from 1900 to 2099, any other field a string; or
    [None]. *)
Definition field_kind (key : string) (v : value) : Prop :=
  v = VNone
  \/ if String.eqb key "company_followers_on_linkedin" then exists z, v = VInt z
     else if String.eqb key "company_employees_on_linkedin"
     then (exists z, v = VInt z) \/ v = VBool true
     else if String.eqb key "company_founded"
     then exists year, v = VInt year /\ 1900 <= year <= 2099
     else exists s, v = VStr s.

(** [after] is [before] but for fields that hold a value of their kind. *)
Definition refines (before after : record) : Prop :=
  forall key,
    after !! key = before !! key
    \/ exists v, after !! key = Some v /\ field_kind key v.

(** * Sample documents *)

Definition acme_url : string := "https://www.linkedin.com/company/acme".
Definition down_url : string := "https://www.linkedin.com/company/unreachable".

(** The object of the end-to-end scenario: an organization with a name
    and a locality. *)
Definition acme_node : list (string * value) :=
  [ ("@type", VStr "Organization");
    ("name", VStr "Acme Inc");
    ("address", VDict [("addressLocality", VStr "Springfield")]) ].

(** A second organization object of the same page, with another address. *)
Definition branch_node : list (string * value) :=
  [ ("@type", VStr "Organization");
    ("address", VDict [("streetAddress", VStr "2 Harbour Road")]) ].

(** An organization whose country is a nested object with a name. *)
Definition nested_country_node : list (string * value) :=
  [ ("@type", VStr "Organization");
    ("name", VStr "Acme Inc");
    ("address", VDict [ ("streetAddress", VStr "1 Main St");
                        ("addressCountry", VDict [ ("@type", VStr "Country");
                                                   ("name", VStr "US") ]) ]) ].

(** An organization whose specialties are all blank. *)
Definition blank_specialties_node : list (string * value) :=
  [ ("@type", VStr "Organization");
    ("knowsAbout", VList [VStr " "; VStr ""]) ].

Definition acme_soup : BeautifulSoup :=
  Soup ["acme.jsonld"; "branch.jsonld"; "not json"]
       (Some "Acme Inc | LinkedIn")
       [ Meta (Some "description") None (Some "Acme builds rockets.");
         Meta None (Some "og:title") (Some "Acme Inc: rockets for everyone") ]
       "Acme Inc 1,234+ followers 51 employees".

(** A page with a social-preview title and nothing that names the
    company. *)
Definition nameless_soup : BeautifulSoup :=
  Soup [] None [Meta None (Some "og:title") (Some "Rockets for everyone")] "".

(** A world in which the page of [acme_url] is served and every other
    request fails at the transport. *)
Definition sample_world : world :=
  World
    (fun _ url _ _ =>
       if String.eqb url acme_url then Ok (Response 200 "<html>acme</html>")
       else Raise (Exn RequestException "connection refused"))
    (fun _ => 1 # 4)
    (fun _ => Ok acme_soup)
    (fun txt =>
       if String.eqb txt "acme.jsonld" then Ok (VDict acme_node)
       else if String.eqb txt "branch.jsonld" then Ok (VList [VDict branch_node])
       else Raise (Exn JSONDecodeError "Expecting value")).

(** A record in which a first node has already set the address. *)
Definition located_record : record :=
  <["company_locality" := VStr "Springfield"]> (empty_company acme_url).

(** * Properties *)

(** ** The normalizers *)

Section AnyChar.
Variables P drop : ascii -> bool.

Lemma any_lstrip_by s : any_char P (Str.lstrip_by drop s) = true -> any_char P s = true.
Proof.
  induction s as [|a s IH]; simpl; [done|].
  destruct (drop a); simpl; [|done].
  intros H. rewrite (IH H). apply orb_true_r.
Qed.

Lemma any_rstrip_by s : any_char P (Str.rstrip_by drop s) = true -> any_char P s = true.
Proof.
  induction s as [|a s IH]; simpl; [done|].
  destruct (Str.rstrip_by drop s) as [|b r] eqn:E.
  - destruct (drop a); simpl; [done|]. rewrite orb_false_r. intros ->. done.
  - cbn [any_char]. intros [->|H]%orb_true_iff; [done|].
    rewrite (IH H). apply orb_true_r.
Qed.
End AnyChar.

(** A check of a property of every character, by cases on its eight bits. *)
Ltac by_cases_on_char a :=
  destruct a as [[] [] [] [] [] [] [] []]; vm_compute; (done || (intros; discriminate)).

Section Strip.
Variable drop : ascii -> bool.

Lemma lstrip_by_head s : head_kept drop (Str.lstrip_by drop s) = true.
Proof.
  induction s as [|a s IH]; simpl; [done|].
  destruct (drop a) eqn:D; [done|]. simpl. by rewrite D.
Qed.

Lemma lstrip_by_fixed s : head_kept drop s = true -> Str.lstrip_by drop s = s.
Proof. destruct s as [|a s]; simpl; [done|]. by destruct (drop a). Qed.

Lemma rstrip_by_head s :
  head_kept drop s = true -> head_kept drop (Str.rstrip_by drop s) = true.
Proof.
  destruct s as [|a s]; simpl; [done|]. intros H.
  destruct (Str.rstrip_by drop s); [|done].
  destruct (drop a) eqn:D; simpl in *; rewrite ?D; done.
Qed.

Lemma rstrip_by_idempotent s :
  Str.rstrip_by drop (Str.rstrip_by drop s) = Str.rstrip_by drop s.
Proof.
  induction s as [|a s IH]; simpl; [done|].
  destruct (Str.rstrip_by drop s) as [|b r] eqn:E.
  - destruct (drop a) eqn:D; simpl; [done|]. by rewrite D.
  - cbn [Str.rstrip_by]. cbn [Str.rstrip_by] in IH. by rewrite IH.
Qed.

Lemma rstrip_by_nonempty_iff s :
  Str.nonempty (Str.rstrip_by drop s) = any_char (fun a => negb (drop a)) s.
Proof.
  induction s as [|a s IH]; simpl; [done|].
  destruct (Str.rstrip_by drop s) as [|b r] eqn:E; simpl in *.
  - rewrite <- IH, orb_false_r. by destruct (drop a).
  - rewrite <- IH. by rewrite orb_true_r.
Qed.

Lemma lstrip_by_any s :
  any_char (fun a => negb (drop a)) (Str.lstrip_by drop s)
  = any_char (fun a => negb (drop a)) s.
Proof.
  induction s as [|a s IH]; simpl; [done|].
  destruct (drop a) eqn:D; simpl; rewrite ?D; done.
Qed.
End Strip.

(** ** Decimal text *)

Lemma append_cons a s t : String a s +:+ t = String a (s +:+ t).
Proof. done. Qed.

Lemma append_nil_l s : "" +:+ s = s.
Proof. done. Qed.

Section AllChar.
Variables P Q : ascii -> bool.

Lemma all_char_app s t : all_char P (s +:+ t) = all_char P s && all_char P t.
Proof.
  induction s as [|a s IH]; [done|]. rewrite append_cons. cbn [all_char].
  by rewrite IH, andb_assoc.
Qed.

Lemma all_char_impl s :
  (forall a, P a = true -> Q a = true) -> all_char P s = true -> all_char Q s = true.
Proof.
  intros H. induction s as [|a s IH]; simpl; [done|].
  intros [Pa Ps]%andb_true_iff. by rewrite (H _ Pa), IH.
Qed.

Lemma all_char_none s :
  (forall a, P a = true -> Q a = false) -> all_char P s = true -> any_char Q s = false.
Proof.
  intros H. induction s as [|a s IH]; simpl; [done|].
  intros [Pa Ps]%andb_true_iff. by rewrite (H _ Pa), IH.
Qed.
End AllChar.

Lemma append_nil_r s : s +:+ "" = s.
Proof. induction s as [|a s IH]; [done|]. by rewrite !append_cons, IH. Qed.

Lemma append_assoc s t u : (s +:+ t) +:+ u = s +:+ (t +:+ u).
Proof. induction s as [|a s IH]; [done|]. by rewrite !append_cons, IH. Qed.

(** [sep.join] of a list with a first item. *)
Lemma join_cons sep g gs :
  Str.join sep (g :: gs)
  = g +:+ match gs with [] => "" | _ => sep +:+ Str.join sep gs end.
Proof. destruct gs; cbn [Str.join]; [by rewrite append_nil_r|done]. Qed.

(** What the literal parser accepts is groups of digits with single
    underscores between them, and it reads them as it reads their
    digits. *)
Lemma read_digits_groups s : forall b acc n r,
  Py.read_digits b acc n s = Some r ->
  exists g gs,
    s = g +:+ match gs with [] => "" | _ => "_" +:+ Str.join "_" gs end
    /\ all_char Str.isdecimal g = true
    /\ (b = false -> Str.nonempty g = true)
    /\ forallb digit_group gs = true
    /\ Py.read_digits true acc n (g +:+ digits_of gs) = Some r.
Proof.
  induction s as [|a s IH]; intros b acc n r; cbn [Py.read_digits].
  - destruct b; [|done]. intros H. exists "", []. by repeat split.
  - destruct (Str.isdecimal a) eqn:D.
    + intros H. apply IH in H as (g & gs & -> & G & _ & Gs & R).
      exists (String a g), gs. rewrite !append_cons.
      cbn [all_char Py.read_digits Str.nonempty]. rewrite D, G. by repeat split.
    + destruct (Ascii.eqb_spec a "_") as [->|]; [|done]. destruct b; [|done].
      intros H. apply IH in H as (g & gs & -> & G & N & Gs & R).
      exists "", (g :: gs). rewrite join_cons, !append_nil_l.
      cbn [all_char forallb digits_of fold_right]. rewrite Gs. unfold digit_group.
      rewrite G, (N eq_refl). by repeat split.
Qed.

Lemma read_digits_of_groups gs : forall g b acc n,
  all_char Str.isdecimal g = true ->
  (b = false -> Str.nonempty g = true) ->
  forallb digit_group gs = true ->
  Py.read_digits b acc n
    (g +:+ match gs with [] => "" | _ => "_" +:+ Str.join "_" gs end)
  = Py.read_digits true acc n (g +:+ digits_of gs).
Proof.
  induction gs as [|g1 gs IH].
  - intros g. induction g as [|a g IHg]; intros b acc n G N _.
    + destruct b; [done|]. by specialize (N eq_refl).
    + cbn [all_char] in G. apply andb_true_iff in G as [D G].
      rewrite !append_cons. cbn [Py.read_digits]. rewrite D. by apply IHg.
  - intros g. induction g as [|a g IHg]; intros b acc n G N Gs.
    + destruct b; [|by specialize (N eq_refl)].
      cbn [forallb] in Gs. apply andb_true_iff in Gs as [G1 Gs].
      unfold digit_group in G1. apply andb_true_iff in G1 as [N1 G1].
      rewrite join_cons, !append_nil_l. cbn [digits_of fold_right].
      change ("_" +:+ ?x) with (String "_" x). cbn [Py.read_digits].
      change (Str.isdecimal "_") with false. change (Ascii.eqb "_" "_") with true.
      cbv iota. rewrite IH by done.
      destruct g1 as [|c g1]; [done|]. cbn [all_char] in G1.
      apply andb_true_iff in G1 as [D _].
      rewrite !append_cons. cbn [Py.read_digits]. by rewrite D.
    + cbn [all_char] in G. apply andb_true_iff in G as [D G].
      rewrite !append_cons. cbn [Py.read_digits]. rewrite D. by apply IHg.
Qed.

Section DecimalText.
Import Decimal.

Lemma read_uint_acc d acc n :
  Py.read_digits true (Z.pos acc) n (NilEmpty.string_of_uint d)
  = Some (Z.pos (Pos.of_uint_acc d acc), (n + nb_digits d)%nat).
Proof.
  revert acc n. induction d; intros acc n; cbn [NilEmpty.string_of_uint nb_digits];
    [cbn; by rewrite Nat.add_0_r|..].
  all: cbn [Py.read_digits Pos.of_uint_acc]; change (Str.isdecimal _) with true; cbv iota;
    match goal with
    | |- Py.read_digits true ?x _ _ = Some (Z.pos (Pos.of_uint_acc _ ?y), _) =>
        replace x with (Z.pos y)
          by (match goal with
                              | |- context [Py.digit_value ?c] =>
                                  let v := eval vm_compute in (Py.digit_value c) in
                                  change (Py.digit_value c) with v
                              end; lia)
    end;
    rewrite IHd; do 2 f_equal; lia.
Qed.

Lemma read_uint d n :
  Py.read_digits true 0 n (NilEmpty.string_of_uint d)
  = Some (Z.of_N (Pos.of_uint d), (n + nb_digits d)%nat).
Proof.
  revert n. induction d; intros n; cbn [NilEmpty.string_of_uint nb_digits];
    [cbn; by rewrite Nat.add_0_r|..].
  1:{ cbn [Py.read_digits]. change (Str.isdecimal _) with true. cbv iota.
      change (10 * 0 + Py.digit_value "0") with 0. rewrite IHd.
      cbn [Pos.of_uint]. do 2 f_equal. lia. }
  all: cbn [Py.read_digits Pos.of_uint]; change (Str.isdecimal _) with true; cbv iota;
    match goal with
    | |- Py.read_digits true ?x _ _ = Some (Z.of_N (Npos (Pos.of_uint_acc _ ?y)), _) =>
        change x with (Z.pos y)
    end;
    rewrite read_uint_acc; do 2 f_equal; lia.
Qed.

Lemma read_uint_start d n :
  d <> Nil ->
  Py.read_digits false 0 n (NilEmpty.string_of_uint d)
  = Py.read_digits true 0 n (NilEmpty.string_of_uint d).
Proof. by destruct d. Qed.

Lemma uint_is_digits d :
  any_char (fun a => negb (Str.isdecimal a)) (NilEmpty.string_of_uint d) = false.
Proof. induction d; cbn [NilEmpty.string_of_uint any_char]; by rewrite ?IHd. Qed.

Lemma uint_length d : String.length (NilEmpty.string_of_uint d) = nb_digits d.
Proof. induction d; cbn [NilEmpty.string_of_uint nb_digits String.length]; by rewrite ?IHd. Qed.

(** A string of digits is the text of a [uint]. *)
Lemma digits_uint ds :
  all_char Str.isdecimal ds = true ->
  exists d, NilEmpty.uint_of_string ds = Some d /\ NilEmpty.string_of_uint d = ds.
Proof.
  induction ds as [|a ds IH]; cbn [all_char].
  - intros _. by exists Nil.
  - intros [D [d [E S]]%IH]%andb_true_iff.
    cbn [NilEmpty.uint_of_string]. rewrite E.
    destruct a as [[] [] [] [] [] [] [] []]; try discriminate D;
      eexists; (split; [reflexivity|]); cbn [NilEmpty.string_of_uint]; by rewrite S.
Qed.

(** The literal parser reads a string of digits as the number it writes
    in base ten. *)
Lemma read_digits_value ds :
  all_char Str.isdecimal ds = true ->
  Py.read_digits true 0 0 ds
  = Some (match NilEmpty.uint_of_string ds with
          | Some d => Z.of_uint d
          | None => 0
          end, String.length ds).
Proof.
  intros (d & -> & <-)%digits_uint. by rewrite read_uint, uint_length.
Qed.
End DecimalText.

Lemma any_char_impl (P Q : ascii -> bool) s :
  (forall a, P a = true -> Q a = true) -> any_char Q s = false -> any_char P s = false.
Proof.
  intros H. induction s as [|a s IH]; simpl; [done|].
  intros [Qa Qs]%orb_false_iff. rewrite (IH Qs), orb_false_r.
  destruct (P a) eqn:Pa; [|done]. apply H in Pa. congruence.
Qed.

Lemma rstrip_by_none drop s : any_char drop s = false -> Str.rstrip_by drop s = s.
Proof.
  induction s as [|a s IH]; simpl; [done|].
  intros [Da Ds]%orb_false_iff. rewrite (IH Ds), Da. by destruct s.
Qed.

Lemma lstrip_by_none drop s : any_char drop s = false -> Str.lstrip_by drop s = s.
Proof. destruct s as [|a s]; simpl; [done|]. by intros [-> _]%orb_false_iff. Qed.

Lemma remove_none c s : any_char (fun a => Ascii.eqb a c) s = false -> Str.remove c s = s.
Proof.
  induction s as [|a s IH]; simpl; [done|].
  intros [-> Ds]%orb_false_iff. by rewrite (IH Ds).
Qed.

Lemma to_ascii_none s :
  any_char (fun a => negb (Str.code a <? 127)%N) s = false -> Py.to_ascii s = s.
Proof.
  induction s as [|a s IH]; simpl; [done|].
  intros [Da Ds]%orb_false_iff. rewrite (IH Ds). unfold Py.to_ascii_char.
  apply negb_false_iff in Da. by rewrite Da.
Qed.

(** ** The text of a number *)

Lemma digits_of_digits groups :
  forallb digit_group groups = true -> all_char Str.isdecimal (digits_of groups) = true.
Proof.
  induction groups as [|g gs IH]; cbn [forallb digits_of fold_right]; [done|].
  unfold digit_group at 1. intros [[_ G]%andb_true_iff Gs]%andb_true_iff.
  rewrite all_char_app, G. by apply IH.
Qed.

Lemma join_number_chars groups :
  forallb digit_group groups = true -> all_char number_char (Str.join "_" groups) = true.
Proof.
  induction groups as [|g gs IH]; [done|]. cbn [forallb].
  unfold digit_group at 1. intros [[_ G]%andb_true_iff Gs]%andb_true_iff.
  rewrite join_cons, all_char_app. apply andb_true_iff. split.
  - eapply all_char_impl; [|exact G]. intros a Ha. unfold number_char. by rewrite Ha.
  - destruct gs as [|g1 gs]; [done|]. rewrite all_char_app. by rewrite IH.
Qed.

Lemma is_sign_cases sign : is_sign sign = true -> sign = "" \/ sign = "+" \/ sign = "-".
Proof.
  unfold is_sign. intros [[H|H]%orb_true_iff|H]%orb_true_iff;
    apply String.eqb_eq in H; auto.
Qed.

Lemma number_text_chars sign groups :
  is_sign sign = true -> forallb digit_group groups = true ->
  all_char number_char (number_text sign groups) = true.
Proof.
  intros S G. unfold number_text. rewrite all_char_app, (join_number_chars _ G).
  by destruct (is_sign_cases _ S) as [-> | [-> | ->]].
Qed.

Lemma number_text_nonempty sign groups :
  groups <> [] -> forallb digit_group groups = true ->
  Str.nonempty (number_text sign groups) = true.
Proof.
  intros N G. unfold number_text. destruct sign; [|done]. rewrite append_nil_l.
  destruct groups as [|g gs]; [done|]. rewrite join_cons.
  cbn [forallb] in G. apply andb_true_iff in G as [[Ng _]%andb_true_iff _].
  by destruct g.
Qed.

Lemma to_ascii_number_char a :
  number_char (Py.to_ascii_char a) = true -> Py.to_ascii_char a = a.
Proof. by_cases_on_char a. Qed.

Lemma to_ascii_number_chars s :
  all_char number_char (Py.to_ascii s) = true -> Py.to_ascii s = s.
Proof.
  induction s as [|a s IH]; cbn [Py.to_ascii all_char]; [done|].
  intros [Ha Hs]%andb_true_iff. by rewrite (to_ascii_number_char _ Ha), (IH Hs).
Qed.

Lemma to_ascii_blank a :
  Str.isspace a = false -> Py.c_isspace (Py.to_ascii_char a) = false.
Proof. by_cases_on_char a. Qed.

(** On text that [str.strip] has trimmed, [int] has no blank to skip. *)
Lemma to_ascii_rstrip u :
  Str.rstrip_by Py.c_isspace (Py.to_ascii (Str.rstrip_by Str.isspace u))
  = Py.to_ascii (Str.rstrip_by Str.isspace u).
Proof.
  induction u as [|a u IH]; cbn [Str.rstrip_by]; [done|].
  destruct (Str.rstrip_by Str.isspace u) as [|b r] eqn:E.
  - destruct (Str.isspace a) eqn:S; [done|].
    cbn [Py.to_ascii Str.rstrip_by]. by rewrite (to_ascii_blank _ S).
  - change (Py.to_ascii (String a (String b r)))
      with (String (Py.to_ascii_char a) (Py.to_ascii (String b r))).
    change (Str.rstrip_by ?drop (String ?c ?s))
      with (match Str.rstrip_by drop s with
            | EmptyString => if drop c then EmptyString else String c EmptyString
            | String x y => String c (String x y)
            end).
    by rewrite IH.
Qed.

Lemma to_ascii_strip u :
  let text := Str.strip u in
  Str.rstrip_by Py.c_isspace (Str.lstrip_by Py.c_isspace (Py.to_ascii text))
  = Py.to_ascii text.
Proof.
  cbn zeta. unfold Str.strip. rewrite lstrip_by_fixed; [apply to_ascii_rstrip|].
  pose proof (rstrip_by_head Str.isspace _ (lstrip_by_head Str.isspace u)) as H.
  destruct (Str.rstrip_by Str.isspace (Str.lstrip_by Str.isspace u)) as [|a r]; [done|].
  cbn [head_kept Py.to_ascii] in *. apply negb_true_iff in H.
  by rewrite (to_ascii_blank _ H).
Qed.

Lemma split_sign_text body :
  exists sign,
    is_sign sign = true /\ body = sign +:+ (Py.split_sign body).2
    /\ (Py.split_sign body).1 = String.eqb sign "-".
Proof.
  destruct body as [|a rest]; [by exists ""|]. cbn [Py.split_sign].
  destruct (Ascii.eqb_spec a "-") as [->|]; [by exists "-"|].
  destruct (Ascii.eqb_spec a "+") as [->|]; [by exists "+"|]. by exists "".
Qed.

(** What [int] accepts, on trimmed text, is numeric. *)
Lemma int_numeric u z : Py.int (Str.strip u) = Ok z -> numeric (Str.strip u).
Proof.
  unfold Py.int. rewrite to_ascii_strip. set (text := Str.strip u).
  destruct (split_sign_text (Py.to_ascii text)) as (sign & S & T & _).
  destruct (Py.split_sign (Py.to_ascii text)) as [negative digits]. cbn [snd] in T.
  destruct (Py.read_digits false 0 0 digits) as [r|] eqn:R; [|done]. intros _.
  apply read_digits_groups in R as (g & gs & -> & G & N & Gs & _).
  rewrite <- join_cons in T.
  assert (forallb digit_group (g :: gs) = true) as Gs'.
  { cbn [forallb]. unfold digit_group at 1. by rewrite G, (N eq_refl), Gs. }
  assert (Py.to_ascii text = text) as E.
  { apply to_ascii_number_chars. rewrite T. by apply number_text_chars. }
  rewrite E in T. by exists sign, (g :: gs).
Qed.

Lemma digit_is_no_sign c :
  Str.isdecimal c = true -> Ascii.eqb c "-" = false /\ Ascii.eqb c "+" = false.
Proof. by_cases_on_char c. Qed.

(** [int] reads numeric text as the number it writes, up to the limit on
    the number of digits. *)
Lemma int_of_number sign groups :
  is_sign sign = true -> groups <> [] -> forallb digit_group groups = true ->
  Py.int (number_text sign groups)
  = if (String.length (digits_of groups) <=? Py.max_str_digits)%nat
    then Ok (number_value sign groups)
    else Raise (Exn ValueError "Exceeds the limit (4300 digits) for integer string conversion").
Proof.
  intros S N G. pose proof (number_text_chars _ _ S G) as C.
  unfold Py.int.
  rewrite to_ascii_none
    by (eapply all_char_none; [|exact C]; intros a; by_cases_on_char a).
  rewrite lstrip_by_none, rstrip_by_none
    by (eapply all_char_none; [|exact C]; intros a; by_cases_on_char a).
  destruct groups as [|g gs]; [done|]. clear N C.
  assert (Py.split_sign (number_text sign (g :: gs))
          = (String.eqb sign "-", Str.join "_" (g :: gs))) as ->.
  { unfold number_text. destruct (is_sign_cases _ S) as [-> | [-> | ->]]; [|done..].
    rewrite append_nil_l, join_cons. cbn [forallb] in G.
    apply andb_true_iff in G as [[Ng Dg]%andb_true_iff _].
    destruct g as [|c g]; [done|]. cbn [all_char] in Dg.
    apply andb_true_iff in Dg as [[C1 C2]%digit_is_no_sign _].
    rewrite append_cons. cbn [Py.split_sign]. by rewrite C1, C2. }
  pose proof (digits_of_digits _ G) as D.
  cbn [forallb] in G. apply andb_true_iff in G as [[Ng Dg]%andb_true_iff Gs].
  rewrite join_cons, read_digits_of_groups by done.
  change (g +:+ digits_of gs) with (digits_of (g :: gs)).
  rewrite read_digits_value by done. unfold number_value.
  destruct (Nat.ltb_spec Py.max_str_digits (String.length (digits_of (g :: gs))));
    destruct (Nat.leb_spec (String.length (digits_of (g :: gs))) Py.max_str_digits);
    try lia; [done|].
  by destruct (String.eqb sign "-").
Qed.

(** [int()] fails with a [ValueError] and with nothing else. *)
Lemma int_raises s e : Py.int s = Raise e -> exn_type e = ValueError.
Proof.
  unfold Py.int. destruct (Py.split_sign _) as [negative digits].
  destruct (Py.read_digits _ _ _ _) as [[z n]|]; [|by intros [= <-]].
  destruct (_ <? _)%nat; [by intros [= <-]|done].
Qed.

Lemma int_of_text_cases text :
  let r := try_except (int_of_text text) [ValueError; TypeError] (fun _ => Ok VNone) in
  r = Ok VNone \/ exists z, r = Ok (VInt z).
Proof.
  unfold int_of_text. simpl. destruct (Str.nonempty _); simpl; [|auto].
  destruct (Py.int _) as [z|e] eqn:E; simpl; [eauto|].
  apply int_raises in E. unfold exn_isinstance. rewrite E. auto.
Qed.

(** [safe_int] returns, and what it returns is [None], an [int] or a
    [bool]. *)
Lemma safe_int_cases v :
  safe_int v = Ok VNone \/ (exists z, safe_int v = Ok (VInt z))
  \/ (exists b, v = VBool b /\ safe_int v = Ok (VBool b)).
Proof.
  pose proof int_of_text_cases as H.
  destruct v; simpl; eauto; edestruct H as [->|[z ->]]; eauto.
Qed.

Lemma safe_int_ok v : exists r, safe_int v = Ok r.
Proof. destruct (safe_int_cases v) as [|[[z ?]|[b [_ ?]]]]; eauto. Qed.

Lemma safe_int_str_cases s :
  safe_int (VStr s) = Ok VNone \/ exists z, safe_int (VStr s) = Ok (VInt z).
Proof. destruct (safe_int_cases (VStr s)) as [|[|[b [? _]]]]; auto; done. Qed.

Lemma extract_year_cases text :
  extract_year text = Ok VNone \/ exists z, extract_year text = Ok (VInt z).
Proof.
  unfold extract_year. destruct (Str.nonempty text); simpl; [|auto].
  destruct (search_year false text); [apply safe_int_str_cases|auto].
Qed.

(** [clean_text] never returns the empty string. *)
Lemma clean_text_nonempty v s : clean_text v = Some s -> Str.nonempty s = true.
Proof.
  unfold clean_text. destruct v; try done.
  all: destruct (Str.nonempty _) eqn:E; [|done]; by intros [= <-].
Qed.

Lemma opt_str_clean_text v : opt_str (clean_text v) <> VStr "".
Proof.
  destruct (clean_text v) as [s|] eqn:E; simpl; [|done].
  apply clean_text_nonempty in E. by destruct s.
Qed.

(** ** Numeric coercion *)

(** C8: ["10,001"] coerces to 10001, and ["1,234+"] to 1234 once its
    trailing symbols are stripped.  Text that is not numeric, commas and
    surrounding blanks aside, coerces to [None]; numeric text coerces to
    the number it writes, or to [None] when it has more than 4300
    digits.  [safe_int] returns for every value. *)
Theorem safe_int_coercion :
  safe_int (VStr "10,001") = Ok (VInt 10001)
  /\ safe_int (VStr (Str.rstrip suffix_chars "1,234+")) = Ok (VInt 1234)
  /\ _extract_number_near_keyword "1,234+ followers" "followers" = Ok (VInt 1234)
  /\ (forall s, ~ numeric (Str.strip (Str.remove "," s)) -> safe_int (VStr s) = Ok VNone)
  /\ (forall s sign groups,
        is_sign sign = true -> groups <> [] -> forallb digit_group groups = true ->
        Str.strip (Str.remove "," s) = number_text sign groups ->
        safe_int (VStr s)
        = Ok (if (String.length (digits_of groups) <=? 4300)%nat
              then VInt (number_value sign groups) else VNone))
  /\ (forall v, exists r, safe_int v = Ok r).
Proof.
  split; [by vm_compute|]. split; [by vm_compute|]. split; [by vm_compute|].
  split; [|split; [|apply safe_int_ok]].
  - intros s Hs. unfold safe_int, int_of_text. cbn [Py.str].
    destruct (Str.nonempty (Str.strip (Str.remove "," s))); cbn [negb]; [|done].
    destruct (Py.int _) as [z|e] eqn:E; cbn [bind try_except].
    + by apply int_numeric in E.
    + apply int_raises in E. cbn [existsb]. unfold exn_isinstance. by rewrite E.
  - intros s sign groups S N G T. unfold safe_int, int_of_text. cbn [Py.str].
    rewrite T, number_text_nonempty, int_of_number by done. cbn [negb].
    change Py.max_str_digits with 4300%nat.
    by destruct (_ <=? _)%nat.
Qed.

Lemma range_is_not_numeric : ~ numeric "51-200".
Proof.
  intros (sign & groups & S & N & G & T).
  pose proof (int_of_number sign groups S N G) as H. rewrite <- T in H.
  assert (Py.int "51-200" = Raise (Py.invalid_literal "51-200")) as E by (by vm_compute).
  rewrite E in H.
  destruct (String.length (digits_of groups) <=? Py.max_str_digits)%nat; [discriminate H|].
  injection H as H. vm_compute in H. discriminate H.
Qed.

Lemma safe_int_coercion_witness :
  (~ numeric (Str.strip (Str.remove "," "51-200"))
   /\ safe_int (VStr "51-200") = Ok VNone)
  /\ safe_int (VStr " -1_0,00 ") = Ok (VInt (-1000)).
Proof.
  assert (~ numeric (Str.strip (Str.remove "," "51-200"))) as H
    by exact range_is_not_numeric.
  split; [split; [exact H|]|].
  - exact (proj1 (proj2 (proj2 (proj2 safe_int_coercion))) "51-200" H).
  - assert (["1"; "000"] <> []) as N by done.
    exact (proj1 (proj2 (proj2 (proj2 (proj2 safe_int_coercion))))
             " -1_0,00 " "-" ["1"; "000"] eq_refl N eq_refl eq_refl).
Defined.

(** ** [_apply_json_ld], field by field *)

Lemma lookup_insert_eqb (t : record) field v key :
  <[field := v]> t !! key = if String.eqb key field then Some v else t !! key.
Proof.
  destruct (String.eqb_spec key field) as [->|Hne].
  - apply lookup_insert_eq.
  - by apply lookup_insert_ne.
Qed.

Lemma upd_at (t : record) key overwrite offer :
  upd overwrite offer (t !! key)
  = match offer with
    | Some v => if overwrite || unset t key then Some v else t !! key
    | None => t !! key
    end.
Proof. done. Qed.

Lemma keep_lookup (t : record) field overwrite key :
  t !! key = if String.eqb key field then upd overwrite None (t !! key) else t !! key.
Proof. by destruct (String.eqb key field). Qed.

Lemma insert_lookup (t : record) field v key :
  <[field := v]> t !! key
  = if String.eqb key field then upd true (Some v) (t !! key) else t !! key.
Proof. apply lookup_insert_eqb. Qed.

Lemma guarded_insert_lookup (t : record) field v key :
  (if unset t field then <[field := v]> t else t) !! key
  = if String.eqb key field then upd false (Some v) (t !! key) else t !! key.
Proof.
  rewrite upd_at. destruct (String.eqb_spec key field) as [->|Hne].
  - destruct (unset t field); simpl; [apply lookup_insert_eq|done].
  - destruct (unset t field); [by apply lookup_insert_ne|done].
Qed.

Lemma guarded_keep_lookup (t : record) field key :
  (if unset t field then t else t) !! key
  = if String.eqb key field then upd false None (t !! key) else t !! key.
Proof. destruct (unset t field); apply (keep_lookup _ _ false). Qed.

Lemma ld_name_lookup node (t : record) key :
  ld_name node t !! key
  = if String.eqb key "company_name"
    then upd true (VStr <$> clean_text (Py.dict_get node "name")) (t !! key)
    else t !! key.
Proof.
  unfold ld_name. destruct (clean_text _); simpl; [apply insert_lookup|apply (keep_lookup _ _ true)].
Qed.

Lemma ld_url_lookup node (t : record) key :
  ld_url node t !! key
  = if String.eqb key "company_website"
    then upd true (VStr <$> clean_text (Py.dict_get node "url")) (t !! key)
    else t !! key.
Proof.
  unfold ld_url. destruct (clean_text _); simpl; [apply insert_lookup|apply (keep_lookup _ _ true)].
Qed.

Lemma ld_address_lookup node (t : record) key :
  ld_address node t !! key = upd true (address_offer node key) (t !! key).
Proof.
  unfold ld_address, address_offer.
  destruct (address_object node); try done.
  rewrite !lookup_insert_eqb.
  repeat (match goal with
          | |- context [String.eqb key ?f] => destruct (String.eqb_spec key f) as [->|?]
          end; [done|]).
  done.
Qed.

Lemma ld_description_lookup node (t : record) key :
  ld_description node t !! key
  = if String.eqb key "company_about_us"
    then upd false (VStr <$> clean_text (Py.dict_get node "description")) (t !! key)
    else t !! key.
Proof.
  unfold ld_description.
  destruct (clean_text _); simpl; [apply guarded_insert_lookup|apply (keep_lookup _ _ false)].
Qed.

Lemma ld_employees_lookup node (t : record) :
  exists t', ld_employees node t = Ok t' /\ forall key,
    t' !! key
    = if String.eqb key "company_employees_on_linkedin"
      then upd false (employees_offer node) (t !! key)
      else t !! key.
Proof.
  unfold ld_employees, employees_offer.
  set (employees := Py.or _ _).
  destruct (safe_int_ok employees) as [count ->]. simpl.
  destruct (Py.truthy employees); simpl.
  - exists (if unset t "company_employees_on_linkedin"
            then <["company_employees_on_linkedin" := count]> t else t).
    split; [by destruct (unset _ _)|]. intros key. apply guarded_insert_lookup.
  - exists t. split; [done|]. intros key. apply (keep_lookup _ _ false).
Qed.

Lemma ld_logo_lookup node (t : record) key :
  ld_logo node t !! key
  = if String.eqb key "company_logo"
    then upd false (logo_offer node) (t !! key)
    else t !! key.
Proof.
  unfold ld_logo, logo_offer. rewrite <- guarded_insert_lookup.
  destruct (unset _ _); [|done]. by destruct (Py.dict_get node "logo").
Qed.

Lemma ld_industry_lookup node (t : record) key :
  ld_industry node t !! key
  = if String.eqb key "company_industry"
    then upd false (VStr <$> clean_text (Py.dict_get node "industry")) (t !! key)
    else t !! key.
Proof.
  unfold ld_industry.
  destruct (clean_text _); simpl; [apply guarded_insert_lookup|apply guarded_keep_lookup].
Qed.

Lemma ld_founded_lookup node (t : record) :
  exists t', ld_founded node t = Ok t' /\ forall key,
    t' !! key
    = if String.eqb key "company_founded"
      then upd false (founded_offer node) (t !! key)
      else t !! key.
Proof.
  unfold ld_founded, founded_offer.
  set (text := safe_str _).
  assert (exists founded, extract_year text = Ok founded) as [founded ->]
    by (destruct (extract_year_cases text) as [|[z ?]]; eauto).
  simpl. destruct (Py.truthy founded).
  - exists (if unset t "company_founded" then <["company_founded" := founded]> t else t).
    split; [by destruct (unset _ _)|]. intros key. apply guarded_insert_lookup.
  - exists t. split; [by destruct (unset _ _)|]. intros key. apply (keep_lookup _ _ false).
Qed.

Lemma ld_size_lookup node (t : record) key :
  ld_size node t !! key
  = if String.eqb key "company_size"
    then upd false (size_offer node) (t !! key)
    else t !! key.
Proof.
  unfold ld_size, size_offer.
  destruct (Py.truthy _); [apply guarded_insert_lookup|apply guarded_keep_lookup].
Qed.

Lemma ld_headquarters_lookup node (t : record) key :
  ld_headquarters node t !! key
  = if String.eqb key "company_headquarters"
    then upd false (headquarters_offer node) (t !! key)
    else t !! key.
Proof.
  unfold ld_headquarters, headquarters_offer.
  destruct (Py.or _ _); first [apply guarded_insert_lookup|apply guarded_keep_lookup].
Qed.

Lemma ld_specialties_lookup node (t : record) key :
  ld_specialties node t !! key
  = if String.eqb key "company_specialties"
    then upd false (specialties_offer node) (t !! key)
    else t !! key.
Proof.
  unfold ld_specialties, specialties_offer.
  destruct (Py.or _ _); first [apply guarded_insert_lookup|apply guarded_keep_lookup].
Qed.

Lemma address_offer_overwrites node key v :
  address_offer node key = Some v -> ld_overwrites key = true.
Proof.
  unfold address_offer. destruct (address_object node); try done.
  repeat (match goal with
          | |- context [String.eqb key ?f] => destruct (String.eqb_spec key f) as [->|?]
          end; [done|]).
  done.
Qed.

(** Evaluates the comparisons of two field names that are both literals. *)
Ltac decide_fields :=
  repeat match goal with
         | |- context [String.eqb ?a ?b] =>
             let r := eval vm_compute in (String.eqb a b) in
             match r with
             | true => change (String.eqb a b) with true
             | false => change (String.eqb a b) with false
             end
         end;
  cbv iota.

(** Splits on whether [key] is the field [field]. *)
Ltac field_case key field :=
  destruct (String.eqb_spec key field) as [->|?]; [decide_fields|].

Lemma address_offer_other node key :
  ld_overwrites key = false -> address_offer node key = None.
Proof.
  destruct (address_offer node key) eqn:E; [|done].
  apply address_offer_overwrites in E. congruence.
Qed.

Lemma address_offer_name node : address_offer node "company_name" = None.
Proof. unfold address_offer. by destruct (address_object node). Qed.

Lemma address_offer_website node : address_offer node "company_website" = None.
Proof. unfold address_offer. by destruct (address_object node). Qed.

(** Every field after [_apply_json_ld] is the field before, written once
    with what the node has for it. *)
Lemma apply_json_ld_lookup node (t : record) :
  exists t', _apply_json_ld node t = Ok t' /\
    forall key, t' !! key = upd (ld_overwrites key) (ld_offer node key) (t !! key).
Proof.
  unfold _apply_json_ld, ld_offer.
  destruct (is_company_type _); simpl; [|by exists t].
  destruct (ld_employees_lookup node
              (ld_description node (ld_address node (ld_url node (ld_name node t)))))
    as [t1 [-> H1]]. simpl.
  destruct (ld_founded_lookup node (ld_industry node (ld_logo node t1)))
    as [t2 [-> H2]]. simpl.
  eexists. split; [done|]. intros key.
  rewrite ld_specialties_lookup, ld_headquarters_lookup, ld_size_lookup, H2,
    ld_industry_lookup, ld_logo_lookup, H1, ld_description_lookup,
    ld_address_lookup, ld_url_lookup, ld_name_lookup.
  field_case key "company_name".
  { by rewrite address_offer_name. }
  field_case key "company_website".
  { by rewrite address_offer_website. }
  field_case key "company_about_us".
  { by rewrite address_offer_other. }
  field_case key "company_employees_on_linkedin".
  { by rewrite address_offer_other. }
  field_case key "company_logo".
  { by rewrite address_offer_other. }
  field_case key "company_industry".
  { by rewrite address_offer_other. }
  field_case key "company_founded".
  { by rewrite address_offer_other. }
  field_case key "company_size".
  { by rewrite address_offer_other. }
  field_case key "company_headquarters".
  { by rewrite address_offer_other. }
  field_case key "company_specialties".
  { by rewrite address_offer_other. }
  destruct (address_offer node key) as [v|] eqn:E; [|done].
  by rewrite (address_offer_overwrites _ _ _ E).
Qed.

(** ** Sequences of writes *)

Section Writes.
Variable overwrite : bool.
Variable key : string.

Local Abbreviation write :=
  (fun (old : option value) (offer : string -> option value) =>
     upd overwrite (offer key) old).

(** A field that is set and guarded goes through every write. *)
Lemma writes_keep offers old :
  overwrite = false -> Py.truthy (default VNone old) = true ->
  fold_left write offers old = old.
Proof.
  intros -> Hset. induction offers as [|offer offers IH]; simpl; [done|].
  replace (upd false (offer key) old) with old; [done|].
  unfold upd. destruct (offer key); [|done]. by rewrite Hset.
Qed.

(** A result that the writes would still replace is the last value
    written: the writes reproduce it. *)
Lemma writes_fixed offers old :
  overwrite = true \/ Py.truthy (default VNone (fold_left write offers old)) = false ->
  fold_left write offers (fold_left write offers old) = fold_left write offers old.
Proof.
  revert old. induction offers as [|offer offers IH]; intros old; simpl; [done|].
  intros Hr. specialize (IH _ Hr).
  set (r := fold_left write offers (upd overwrite (offer key) old)) in *.
  destruct (offer key) as [v|] eqn:E; [|done].
  assert (upd overwrite (Some v) r = Some v) as ->.
  { unfold upd. destruct Hr as [-> | ->]; [done|by rewrite orb_true_r]. }
  destruct (overwrite || negb (Py.truthy (default VNone old))) eqn:C.
  - assert (upd overwrite (Some v) old = Some v) as U by (unfold upd; by rewrite C).
    subst r. by rewrite U.
  - assert (upd overwrite (Some v) old = old) as U by (unfold upd; by rewrite C).
    subst r. rewrite U in *.
    apply orb_false_iff in C as [O C]. apply negb_false_iff in C.
    rewrite writes_keep in Hr by done. destruct Hr; congruence.
Qed.

Lemma writes_idempotent offers old :
  fold_left write offers (fold_left write offers old) = fold_left write offers old.
Proof.
  destruct (Bool.bool_dec overwrite true) as [O|O%not_true_is_false].
  - apply writes_fixed. by left.
  - destruct (Py.truthy (default VNone (fold_left write offers old))) eqn:T.
    + by apply writes_keep.
    + apply writes_fixed. by right.
Qed.

Lemma writes_is_Some offers old :
  is_Some old -> is_Some (fold_left write offers old).
Proof.
  revert old. induction offers as [|offer offers IH]; intros old H; simpl; [done|].
  apply IH. unfold upd. destruct (offer key); [|done].
  by destruct (_ || _).
Qed.

Lemma writes_none offers old :
  Forall (fun offer => offer key = None) offers -> fold_left write offers old = old.
Proof.
  induction 1 as [|offer offers H _ IH]; simpl; [done|]. by rewrite H.
Qed.

Lemma writes_invariant (P : option value -> Prop) offers old :
  Forall (fun offer => forall v, offer key = Some v -> P (Some v)) offers ->
  P old -> P (fold_left write offers old).
Proof.
  intros H. revert old. induction H as [|offer offers H _ IH]; intros old Hold; simpl; [done|].
  apply IH. unfold upd. destruct (offer key) as [v|]; [|done].
  destruct (_ || _); [by apply H|done].
Qed.
End Writes.

Lemma written_by_nil (t : record) : written_by [] t t.
Proof. by intros key. Qed.

Lemma written_by_app offers1 offers2 (t t1 t2 : record) :
  written_by offers1 t t1 -> written_by offers2 t1 t2 ->
  written_by (offers1 ++ offers2)%list t t2.
Proof. intros H1 H2 key. by rewrite fold_left_app, <- H1, <- H2. Qed.

Lemma apply_json_ld_written node (t : record) :
  exists t', _apply_json_ld node t = Ok t' /\ written_by [ld_offer node] t t'.
Proof.
  destruct (apply_json_ld_lookup node t) as [t' [-> H]]. by exists t'.
Qed.

(** The entries of a decoded list act as the sequence of their objects. *)
Lemma apply_entries_written entries :
  exists nodes, forall t : record,
    exists t', apply_entries entries t = Ok t' /\ written_by (map ld_offer nodes) t t'.
Proof.
  induction entries as [|entry entries [nodes IH]].
  - exists []. intros t. exists t. split; [done|apply written_by_nil].
  - destruct entry as [| | | | | |node]; try (exists nodes; intros t; apply IH).
    exists (node :: nodes). intros t. simpl.
    destruct (apply_json_ld_written node t) as [t1 [-> H1]]. simpl.
    destruct (IH t1) as [t2 [-> H2]].
    exists t2. split; [done|]. apply (written_by_app [ld_offer node] _ _ _ _ H1 H2).
Qed.

(** A scan of the scripts of a document either raises whatever the record
    is, or acts as the sequence of the candidate objects it meets. *)
Lemma apply_scripts_written w scripts :
  (exists exc, forall t : record, apply_scripts w scripts t = Raise exc)
  \/ (exists nodes, forall t : record,
        exists t', apply_scripts w scripts t = Ok t'
                   /\ written_by (map ld_offer nodes) t t').
Proof.
  induction scripts as [|txt scripts IH]; simpl.
  - right. exists []. intros t. exists t. split; [done|apply written_by_nil].
  - destruct (load_script w txt) as [parsed|exc]; simpl; [|left; by exists exc].
    destruct parsed as [[| | | | |entries|node]|]; try apply IH.
    + destruct (apply_entries_written entries) as [nodes1 H1].
      destruct IH as [[exc IH]|[nodes2 IH]].
      * left. exists exc. intros t. destruct (H1 t) as [t1 [-> _]]. apply IH.
      * right. exists (nodes1 ++ nodes2)%list. intros t.
        destruct (H1 t) as [t1 [-> W1]]. simpl. destruct (IH t1) as [t2 [-> W2]].
        exists t2. split; [done|]. rewrite map_app. by eapply written_by_app.
    + destruct IH as [[exc IH]|[nodes2 IH]].
      * left. exists exc. intros t.
        destruct (apply_json_ld_written node t) as [t1 [-> _]]. apply IH.
      * right. exists (node :: nodes2). intros t.
        destruct (apply_json_ld_written node t) as [t1 [-> W1]]. simpl.
        destruct (IH t1) as [t2 [-> W2]].
        exists t2. split; [done|].
        apply (written_by_app [ld_offer node] _ _ _ _ W1 W2).
Qed.

Lemma parse_from_json_ld_written w soup (t t' : record) :
  _parse_from_json_ld w soup t = Ok t' ->
  exists nodes, written_by (map ld_offer nodes) t t'
    /\ forall t1 : record, exists t2,
         _parse_from_json_ld w soup t1 = Ok t2 /\ written_by (map ld_offer nodes) t1 t2.
Proof.
  unfold _parse_from_json_ld. intros H.
  destruct (apply_scripts_written w (ld_json_scripts soup)) as [[exc E]|[nodes E]].
  - rewrite E in H. done.
  - exists nodes. split; [|done]. destruct (E t) as [t2 [E2 W]].
    rewrite E2 in H. by injection H as <-.
Qed.

(** ** [_parse_from_meta_and_title], block by block *)

Lemma fills_refl fields (t : record) : fills fields t t.
Proof. intros key. by left. Qed.

Lemma fills_weaken fields fields' (t t' : record) :
  incl fields fields' -> fills fields t t' -> fills fields' t t'.
Proof.
  intros Hincl H key. destruct (H key) as [|(U & I & V)]; [by left|].
  right. split; [done|]. split; [by apply Hincl|done].
Qed.

Lemma fills_trans fields (t t1 t2 : record) :
  fills fields t t1 -> fills fields t1 t2 -> fills fields t t2.
Proof.
  intros H1 H2 key.
  destruct (H2 key) as [E2|(U2 & I2 & V2)]; destruct (H1 key) as [E1|(U1 & I1 & V1)].
  - left. congruence.
  - right. rewrite E2. done.
  - right. split; [|done]. unfold unset, get in *. by rewrite <- E1.
  - right. done.
Qed.

Lemma fills_insert field v (t : record) :
  unset t field = true -> v <> VStr "" -> fills [field] t (<[field := v]> t).
Proof.
  intros U V key. destruct (decide (key = field)) as [->|Hne].
  - right. split; [done|]. split; [by left|]. exists v. by rewrite lookup_insert_eq.
  - left. by apply lookup_insert_ne.
Qed.

Lemma fills_other fields (t t' : record) key :
  fills fields t t' -> ~ In key fields -> t' !! key = t !! key.
Proof. intros H Hn. destruct (H key) as [|(_ & I & _)]; done. Qed.

Lemma fills_set fields (t t' : record) key :
  fills fields t t' -> unset t key = false -> t' !! key = t !! key.
Proof. intros H Hs. destruct (H key) as [|(U & _)]; [done|congruence]. Qed.

Lemma VStr_nonempty s : Str.nonempty s = true -> VStr s <> VStr "".
Proof. by destruct s. Qed.

Lemma title_pieces_nonempty title first rest :
  title_pieces title = first :: rest -> Str.nonempty first = true.
Proof.
  unfold title_pieces. intros H.
  assert (In first (List.filter Str.nonempty (map Str.strip (Str.split_on "|" title)))) as I
    by (rewrite H; by left).
  by apply filter_In in I as [_ ?].
Qed.

Lemma meta_name_from_title_fills soup (t : record) :
  fills ["company_name"] t (meta_name_from_title soup t).
Proof.
  unfold meta_name_from_title.
  destruct (unset t "company_name") eqn:U; [|apply fills_refl].
  destruct (title_string soup) as [raw|]; [|apply fills_refl].
  destruct (Str.nonempty raw); [|apply fills_refl].
  destruct (clean_text (VStr raw)) as [title|]; [|apply fills_refl].
  destruct (title_pieces title) as [|first rest] eqn:E; [apply fills_refl|].
  apply fills_insert; [done|]. by eapply VStr_nonempty, title_pieces_nonempty.
Qed.

Lemma meta_description_fills soup (t : record) :
  fills ["company_about_us"; "company_twitter_description"] t (meta_description soup t).
Proof.
  unfold meta_description.
  destruct (unset t "company_about_us") eqn:U; [|apply fills_refl].
  destruct (_find_meta_content soup _) as [desc|]; [|apply fills_refl].
  set (t1 := <["company_about_us" := opt_str (clean_text (VStr desc))]> t).
  assert (fills ["company_about_us"; "company_twitter_description"] t t1) as H1.
  { eapply fills_weaken; [|apply fills_insert; [done|apply opt_str_clean_text]].
    intros key [<-|[]]. by left. }
  destruct (unset t1 "company_twitter_description") eqn:U1; [|done].
  eapply fills_trans; [exact H1|].
  eapply fills_weaken; [|apply fills_insert; [done|apply opt_str_clean_text]].
  intros key [<-|[]]. right. by left.
Qed.

Lemma meta_logo_fills soup (t : record) :
  fills ["company_logo"] t (meta_logo soup t).
Proof.
  unfold meta_logo.
  destruct (unset t "company_logo") eqn:U; [|apply fills_refl].
  destruct (_find_meta_content soup _) as [logo|]; [|apply fills_refl].
  apply fills_insert; [done|apply opt_str_clean_text].
Qed.

Lemma meta_cover_fills soup (t : record) :
  fills ["company_cover_image"] t (meta_cover soup t).
Proof.
  unfold meta_cover.
  destruct (unset t "company_cover_image") eqn:U; [|apply fills_refl].
  destruct (_find_meta_content soup _) as [cover|]; [|apply fills_refl].
  apply fills_insert; [done|apply opt_str_clean_text].
Qed.

Lemma meta_slogan_fills soup (t : record) :
  fills ["company_slogan"] t (meta_slogan soup t).
Proof.
  unfold meta_slogan.
  destruct (unset t "company_slogan") eqn:U; [|apply fills_refl].
  destruct (_find_meta_content soup _) as [raw|]; [|apply fills_refl].
  destruct (clean_text (VStr raw)) as [headline|] eqn:E; [|apply fills_refl].
  destruct (_ && _); [|apply fills_refl].
  apply fills_insert; [done|]. by eapply VStr_nonempty, clean_text_nonempty.
Qed.

Lemma number_before_cases keyword tokens prev :
  number_before keyword prev tokens = Ok VNone
  \/ exists z, number_before keyword prev tokens = Ok (VInt z).
Proof.
  revert prev. induction tokens as [|token tokens IH]; intros prev;
    cbn [number_before]; [by left|].
  destruct prev as [candidate|]; [|apply IH].
  destruct (Str.contains _ _); [|apply IH].
  destruct (safe_int_str_cases (Str.rstrip suffix_chars candidate)) as [-> |[z ->]];
    cbn [bind].
  - apply IH.
  - right. by exists z.
Qed.

Lemma meta_counter_fills body_text field keyword (t : record) :
  exists t', meta_counter body_text field keyword t = Ok t' /\ fills [field] t t'.
Proof.
  unfold meta_counter, _extract_number_near_keyword.
  destruct (unset t field) eqn:U; [|exists t; split; [done|apply fills_refl]].
  destruct (number_before_cases (Str.lower keyword) (Str.split_ws body_text) None)
    as [-> |[z ->]]; simpl.
  - exists t. split; [done|apply fills_refl].
  - eexists. split; [done|]. by apply fills_insert.
Qed.

Ltac field_incl := intros ? ?; simpl in *; intuition.

(** The heuristic pass returns, and fills only unset fields. *)
Lemma parse_from_meta_and_title_fills soup (t : record) :
  exists t', _parse_from_meta_and_title soup t = Ok t' /\ fills meta_fields t t'.
Proof.
  unfold _parse_from_meta_and_title.
  set (t5 := meta_slogan soup _).
  assert (fills meta_fields t t5) as H5.
  { subst t5.
    eapply fills_trans; [|eapply fills_weaken; [|apply meta_slogan_fills]; field_incl].
    eapply fills_trans; [|eapply fills_weaken; [|apply meta_cover_fills]; field_incl].
    eapply fills_trans; [|eapply fills_weaken; [|apply meta_logo_fills]; field_incl].
    eapply fills_trans; [|eapply fills_weaken; [|apply meta_description_fills]; field_incl].
    eapply fills_weaken; [|apply meta_name_from_title_fills]. field_incl. }
  destruct (Str.nonempty (get_text soup)); [|by exists t5].
  destruct (meta_counter_fills (get_text soup) "company_followers_on_linkedin"
              "followers" t5) as [t6 [-> H6]]. simpl.
  destruct (meta_counter_fills (get_text soup) "company_employees_on_linkedin"
              "employees" t6) as [t7 [-> H7]].
  exists t7. split; [done|].
  eapply fills_trans; [|eapply fills_weaken; [|exact H7]; field_incl].
  eapply fills_trans; [exact H5|]. eapply fills_weaken; [|exact H6]. field_incl.
Qed.

(** ** The structured-data extractor *)

Lemma written_by_set offers (t t' : record) key :
  written_by offers t t' -> ld_overwrites key = false -> unset t key = false ->
  t' !! key = t !! key.
Proof.
  intros W O U. rewrite (W key), O. apply writes_keep; [done|].
  by apply negb_false_iff in U.
Qed.

(** The country of a nested object is never read: whatever the object
    holds, the field comes out [None]. *)
Lemma nested_country_is_dropped node address country (t : record) :
  is_company_type (Str.lower (safe_str (Py.dict_get node "@type"))) = true ->
  address_object node = VDict address ->
  Py.dict_get address "addressCountry" = VDict country ->
  returns_with (_apply_json_ld node t) "company_country" VNone.
Proof.
  intros Hc Ha Hn. destruct (apply_json_ld_lookup node t) as [t' [-> H]].
  simpl. rewrite H. unfold ld_offer, address_offer, country_value.
  by rewrite Hc, Ha, Hn.
Qed.

(** C7: on an organization whose address has the country
    [{"@type": "Country", "name": "US"}], the extractor takes the street
    from the address and leaves [company_country] at [None]. *)
Theorem nested_country_comes_out_absent :
  returns_with (_apply_json_ld nested_country_node (empty_company acme_url))
    "company_street" (VStr "1 Main St")
  /\ returns_with (_apply_json_ld nested_country_node (empty_company acme_url))
       "company_country" VNone.
Proof.
  split; [by vm_compute|].
  apply (nested_country_is_dropped _
           [ ("streetAddress", VStr "1 Main St");
             ("addressCountry", VDict [("@type", VStr "Country"); ("name", VStr "US")]) ]
           [("@type", VStr "Country"); ("name", VStr "US")]); by vm_compute.
Qed.

(** C4, the claim as stated, fails: a second organization node with an
    address clears the locality that the record already holds. *)
Lemma set_locality_is_cleared :
  located_record !! "company_locality" = Some (VStr "Springfield")
  /\ returns_with (_apply_json_ld branch_node located_record) "company_locality" VNone.
Proof. split; by vm_compute. Qed.

(** C4, amended: a pass of either extractor leaves every field that is
    set (holds a value other than [None], the empty string and zero) as
    it is, but for the fields the structured-data pass overwrites:
    [company_name], [company_website] and the six address fields. *)
Theorem extractors_keep_set_fields :
  (forall node (t : record), exists t',
      _apply_json_ld node t = Ok t' /\
      forall key, ld_overwrites key = false -> unset t key = false ->
                  t' !! key = t !! key)
  /\ (forall w soup (t t' : record),
        _parse_from_json_ld w soup t = Ok t' ->
        forall key, ld_overwrites key = false -> unset t key = false ->
                    t' !! key = t !! key)
  /\ (forall soup (t : record), exists t',
        _parse_from_meta_and_title soup t = Ok t' /\
        forall key, unset t key = false -> t' !! key = t !! key).
Proof.
  split; [|split].
  - intros node t. destruct (apply_json_ld_written node t) as [t' [E W]].
    exists t'. split; [done|]. intros key. by apply written_by_set with (1 := W).
  - intros w soup t t' E key. apply parse_from_json_ld_written in E as [nodes [W _]].
    by apply written_by_set with (1 := W).
  - intros soup t. destruct (parse_from_meta_and_title_fills soup t) as [t' [E F]].
    exists t'. split; [done|]. intros key. by apply fills_set with (1 := F).
Qed.

Lemma extractors_keep_set_fields_witness :
  returns_with (_apply_json_ld branch_node located_record)
    "company_profile" (VStr acme_url).
Proof.
  destruct (proj1 extractors_keep_set_fields branch_node located_record) as [t' [-> H]].
  simpl. rewrite H; by vm_compute.
Defined.

(** C6: a second run of the structured-data extractor over the same
    document returns the record of the first run: no field changes, not
    even [company_name] and [company_website], which already hold the
    values of the last matching node. *)
Theorem structured_data_idempotent w soup (t r1 : record) :
  _parse_from_json_ld w soup t = Ok r1 ->
  exists r2, _parse_from_json_ld w soup r1 = Ok r2
    /\ (forall key, key <> "company_name" -> key <> "company_website" ->
                    r2 !! key = r1 !! key)
    /\ r2 !! "company_name" = r1 !! "company_name"
    /\ r2 !! "company_website" = r1 !! "company_website".
Proof.
  intros E. apply parse_from_json_ld_written in E as [nodes [W1 E2]].
  destruct (E2 r1) as [r2 [-> W2]]. exists r2. split; [done|].
  assert (forall key, r2 !! key = r1 !! key) as H.
  { intros key. rewrite (W2 key), (W1 key). apply writes_idempotent. }
  auto.
Qed.

Lemma structured_data_idempotent_witness :
  match _parse_from_json_ld sample_world acme_soup (empty_company acme_url) with
  | Ok r1 => _parse_from_json_ld sample_world acme_soup r1 = Ok r1
  | Raise _ => False
  end.
Proof.
  assert (returns (_parse_from_json_ld sample_world acme_soup (empty_company acme_url))
          = true) as R by (by vm_compute).
  destruct (_parse_from_json_ld sample_world acme_soup (empty_company acme_url))
    as [r1|exc] eqn:E1; [|done].
  destruct (structured_data_idempotent _ _ _ _ E1) as [r2 [E2 [H [Hn Hw]]]].
  rewrite E2. f_equal. apply map_eq. intros key.
  destruct (decide (key = "company_name")) as [->|?]; [done|].
  destruct (decide (key = "company_website")) as [->|?]; [done|]. by apply H.
Defined.

(** ** Where an empty string can come from *)

Lemma fmap_VStr_clean_text v x :
  VStr <$> clean_text v = Some x -> x <> VStr "".
Proof.
  destruct (clean_text v) as [s|] eqn:E; simpl; [|done].
  intros [= <-]. by eapply VStr_nonempty, clean_text_nonempty.
Qed.

Lemma address_offer_not_empty node key v :
  address_offer node key = Some v -> v <> VStr "".
Proof.
  unfold address_offer. destruct (address_object node); try done.
  repeat (match goal with
          | |- context [String.eqb key ?f] => destruct (String.eqb key f)
          end; [intros [= <-]; apply opt_str_clean_text|]).
  done.
Qed.

(** Turns [H : Some x = Some v] into the replacement of [v] by [x], as
    [x] is written. *)
Ltac by_injection H :=
  match type of H with
  | Some ?x = Some ?v => assert (v = x) as -> by congruence
  end.

(** No node has the empty string for a field other than
    [company_specialties]. *)
Lemma ld_offer_not_empty node key v :
  ld_offer node key = Some v -> key <> "company_specialties" -> v <> VStr "".
Proof.
  unfold ld_offer. destruct (negb _); [done|].
  destruct (String.eqb key "company_name"); [intros H _; by eapply fmap_VStr_clean_text|].
  destruct (String.eqb key "company_website"); [intros H _; by eapply fmap_VStr_clean_text|].
  destruct (String.eqb key "company_about_us"); [intros H _; by eapply fmap_VStr_clean_text|].
  destruct (String.eqb key "company_employees_on_linkedin").
  { unfold employees_offer. destruct (Py.truthy _); [|done]. intros [= <-] _.
    by destruct (safe_int_cases (Py.or (Py.dict_get node "numberOfEmployees")
                                       (Py.dict_get node "employees")))
      as [-> |[[z ->]|[b [_ ->]]]]. }
  destruct (String.eqb key "company_logo").
  { unfold logo_offer. intros H _.
    destruct (Py.dict_get node "logo"); by_injection H; apply opt_str_clean_text. }
  destruct (String.eqb key "company_industry"); [intros H _; by eapply fmap_VStr_clean_text|].
  destruct (String.eqb key "company_founded").
  { unfold founded_offer. intros H _.
    destruct (extract_year_cases (safe_str (Py.or (Py.dict_get node "foundingDate")
                                                  (Py.dict_get node "foundingYear"))))
      as [E|[z E]]; rewrite E in H; simpl in H; [done|].
    destruct (negb (z =? 0)); [by injection H as <-|done]. }
  destruct (String.eqb key "company_size").
  { unfold size_offer. destruct (Py.truthy _); [|done]. intros [= <-] _.
    apply opt_str_clean_text. }
  destruct (String.eqb key "company_headquarters").
  { unfold headquarters_offer. intros H _.
    destruct (Py.or _ _); try done; by_injection H; apply opt_str_clean_text. }
  destruct (String.eqb_spec key "company_specialties") as [->|_]; [done|].
  intros H _. by eapply address_offer_not_empty.
Qed.

(** A node has nothing for a field that [_apply_json_ld] does not assign. *)
Lemma ld_offer_fields node key v :
  ld_offer node key = Some v -> In key (ld_overwritten ++ ld_guarded).
Proof.
  unfold ld_offer. destruct (negb _); [done|].
  repeat (match goal with
          | |- context [String.eqb key ?f] =>
              destruct (String.eqb_spec key f) as [->|?]; [intros _; simpl; tauto|]
          end).
  unfold address_offer. destruct (address_object node); try done.
  repeat (match goal with
          | |- context [String.eqb key ?f] =>
              destruct (String.eqb_spec key f) as [->|?]; [intros _; simpl; tauto|]
          end).
  done.
Qed.

Lemma empty_company_lookup url key v :
  empty_company url !! key = Some v -> v = VNone \/ v = VStr url.
Proof.
  unfold empty_company. rewrite lookup_insert_eqb.
  destruct (String.eqb key "company_profile"); [intros [= <-]; by right|].
  intros H. left. revert H. generalize company_fields.
  induction l as [|field fields IH]; simpl; [by rewrite lookup_empty|].
  rewrite lookup_insert_eqb. destruct (String.eqb key field); [by intros [= <-]|done].
Qed.

Lemma cleaned_items_blank items :
  Forall (fun item => clean_text item = None) items -> cleaned_items items = [].
Proof.
  unfold cleaned_items. induction 1 as [|item items H _ IH]; simpl; [done|].
  by rewrite H.
Qed.

(** C10: a candidate node whose specialties are a list of values that all
    normalize to [None] sets [company_specialties], when it is unset, to
    the empty string; and in a record parsed for a non-empty URL, no other
    field holds the empty string. *)
Theorem blank_specialties_give_empty_string :
  (forall node items (t : record),
      is_company_type (Str.lower (safe_str (Py.dict_get node "@type"))) = true ->
      Py.or (Py.dict_get node "knowsAbout")
            (Py.or (Py.dict_get node "specialty") (Py.dict_get node "specialties"))
      = VList items ->
      Forall (fun item => clean_text item = None) items ->
      unset t "company_specialties" = true ->
      returns_with (_apply_json_ld node t) "company_specialties" (VStr ""))
  /\ (forall w html url r key,
        url <> "" ->
        _parse_company w html url = Ok r ->
        r !! key = Some (VStr "") ->
        key = "company_specialties").
Proof.
  split.
  - intros node items t Hc Hs Hb Hu.
    destruct (apply_json_ld_lookup node t) as [t' [-> H]]. simpl. rewrite H.
    unfold ld_offer. rewrite Hc. simpl. unfold specialties_offer. rewrite Hs.
    rewrite (cleaned_items_blank _ Hb). rewrite upd_at, Hu. done.
  - intros w html url r key Hurl. unfold _parse_company.
    destruct (make_soup w html) as [soup|]; [|done]. simpl.
    destruct (_parse_from_json_ld w soup (empty_company url)) as [t1|] eqn:E1; [|done].
    simpl. destruct (parse_from_meta_and_title_fills soup t1) as [t2 [-> F]]. simpl.
    intros [= <-] Hk.
    destruct (decide (key = "company_specialties")) as [|Hne]; [done|]. exfalso.
    apply parse_from_json_ld_written in E1 as [nodes [W _]].
    assert (t1 !! key <> Some (VStr "")) as H1.
    { rewrite (W key). apply writes_invariant.
      - apply List.Forall_forall. intros offer [node [<- _]]%in_map_iff v Hv [= ->].
        by eapply ld_offer_not_empty.
      - intros Hv. apply empty_company_lookup in Hv as [|[= <-]]; done. }
    destruct (F key) as [E|(_ & _ & v & E & Hv)]; congruence.
Qed.

Lemma blank_specialties_give_empty_string_witness :
  returns_with (_apply_json_ld blank_specialties_node (empty_company acme_url))
    "company_specialties" (VStr "").
Proof.
  apply (proj1 blank_specialties_give_empty_string blank_specialties_node
           [VStr " "; VStr ""]).
  - by vm_compute.
  - by vm_compute.
  - repeat constructor.
  - by vm_compute.
Defined.

(** ** The slogan *)

(** C9, the claim as stated, fails: the social-preview title differs from
    the company name, which is [None], and the slogan stays [None]. *)
Lemma slogan_needs_a_name :
  _find_meta_content nameless_soup ["og:title"; "twitter:title"]
  = Some "Rockets for everyone"
  /\ returns_with (_parse_from_meta_and_title nameless_soup (empty_company acme_url))
       "company_name" VNone
  /\ differs "Rockets for everyone" VNone = true
  /\ returns_with (_parse_from_meta_and_title nameless_soup (empty_company acme_url))
       "company_slogan" VNone.
Proof. repeat split; by vm_compute. Qed.

Ltac not_a_field :=
  unfold meta_fields in *; cbn [In] in *; intuition congruence.

(** C9, amended: when [company_slogan] is unset, the heuristic pass sets
    it to the normalized social-preview title exactly when that title is
    not blank, a company name has been resolved, and the two differ;
    otherwise the field is left as it was. *)
Theorem slogan_from_social_title soup (t : record) :
  unset t "company_slogan" = true ->
  exists t', _parse_from_meta_and_title soup t = Ok t' /\
    t' !! "company_slogan"
    = match _find_meta_content soup ["og:title"; "twitter:title"] with
      | Some raw =>
          match clean_text (VStr raw) with
          | Some headline =>
              if Py.truthy (get t' "company_name")
                 && differs headline (get t' "company_name")
              then Some (VStr headline)
              else t !! "company_slogan"
          | None => t !! "company_slogan"
          end
      | None => t !! "company_slogan"
      end.
Proof.
  intros U. unfold _parse_from_meta_and_title.
  set (t1 := meta_name_from_title soup t).
  set (t4 := meta_cover soup (meta_logo soup (meta_description soup t1))).
  set (t5 := meta_slogan soup t4).
  assert (forall key, ~ In key meta_fields \/ key = "company_slogan" ->
            t4 !! key = t !! key) as H4.
  { intros key Hk. subst t4 t1.
    rewrite (fills_other _ _ _ _ (meta_cover_fills _ _)) by (destruct Hk as [?| ->]; not_a_field).
    rewrite (fills_other _ _ _ _ (meta_logo_fills _ _)) by (destruct Hk as [?| ->]; not_a_field).
    rewrite (fills_other _ _ _ _ (meta_description_fills _ _))
      by (destruct Hk as [?| ->]; not_a_field).
    rewrite (fills_other _ _ _ _ (meta_name_from_title_fills _ _))
      by (destruct Hk as [?| ->]; not_a_field).
    done. }
  assert (exists t', (if Str.nonempty (get_text soup)
                      then target <- meta_counter (get_text soup)
                                       "company_followers_on_linkedin" "followers" t5 ;;
                           meta_counter (get_text soup)
                             "company_employees_on_linkedin" "employees" target
                      else Ok t5) = Ok t'
                     /\ t' !! "company_slogan" = t5 !! "company_slogan"
                     /\ t' !! "company_name" = t4 !! "company_name") as [t' [E [Hs Hn]]].
  { assert (t5 !! "company_name" = t4 !! "company_name") as H5
      by (apply (fills_other _ _ _ _ (meta_slogan_fills _ _)); not_a_field).
    destruct (Str.nonempty (get_text soup)); [|by exists t5].
    destruct (meta_counter_fills (get_text soup) "company_followers_on_linkedin"
                "followers" t5) as [t6 [-> H6]]. cbn [bind].
    destruct (meta_counter_fills (get_text soup) "company_employees_on_linkedin"
                "employees" t6) as [t7 [-> H7]].
    exists t7. split; [done|].
    rewrite !(fills_other _ _ _ _ H7), !(fills_other _ _ _ _ H6) by not_a_field.
    done. }
  exists t'. split; [exact E|]. rewrite Hs. unfold get. rewrite Hn.
  subst t5. unfold meta_slogan, unset, get.
  rewrite (H4 "company_slogan") by (by right).
  unfold unset, get in U. rewrite U.
  destruct (_find_meta_content soup _) as [raw|]; [|by apply H4; right].
  destruct (clean_text (VStr raw)) as [headline|]; [|by apply H4; right].
  destruct (_ && _); [apply lookup_insert_eq|by apply H4; right].
Qed.

Lemma slogan_from_social_title_witness :
  let named := <["company_name" := VStr "Acme Inc"]> (empty_company acme_url) in
  unset named "company_slogan" = true
  /\ exists t', _parse_from_meta_and_title acme_soup named = Ok t'
       /\ returns_with (_parse_from_meta_and_title acme_soup named)
            "company_slogan" (VStr "Acme Inc: rockets for everyone").
Proof.
  split; [by vm_compute|].
  destruct (slogan_from_social_title acme_soup
              (<["company_name" := VStr "Acme Inc"]> (empty_company acme_url)))
    as [t' [E _]]; [by vm_compute|].
  exists t'. split; [exact E|by vm_compute].
Defined.

(** ** The fetcher *)

(** C5: with [max_retries = 3] and [backoff_factor = 1.5], a fetch whose
    three attempts fail sleeps after each of them, the last included:
    the backoffs are 1.5, 3 and 6 seconds, 10.5 seconds in all and not
    4.5, each with its jitter on top. *)
Theorem backoff_sleeps_after_every_attempt :
  let run := _fetch_company_page sample_world default_scraper down_url None initial_state in
  run.1 = Raise (Exn RequestException "connection refused")
  /\ requests run.2 = 3%nat
  /\ Forall2 Qeq (map fst (sleeps run.2)) [3 # 2; 3 # 1; 6 # 1]
  /\ map snd (sleeps run.2) = map (random_uniform sample_world) [0; 1; 2]%nat
  /\ total_backoff run.2 == 21 # 2
  /\ ~ total_backoff run.2 == 9 # 2.
Proof.
  vm_compute. repeat split; try done.
  repeat constructor.
Qed.

(** ** The orchestrator *)

Lemma exn_isinstance_Exception exc : exn_isinstance exc Exception = true.
Proof. unfold exn_isinstance. by destruct (exn_type exc). Qed.

Lemma scrape_one_batch w self proxies url results st :
  scrape_one w self proxies url results st
  = (Ok (results ++ [record_for w url (_fetch_company_page w self url proxies st).1])%list,
     (_fetch_company_page w self url proxies st).2).
Proof.
  unfold scrape_one, record_for.
  destruct (_fetch_company_page w self url proxies st) as [[html|exc] st1]; cbn [bind fst snd].
  - destruct (_parse_company w html url) as [company|exc]; cbn [bind try_except existsb]; [done|].
    by rewrite exn_isinstance_Exception.
  - cbn [try_except existsb]. by rewrite exn_isinstance_Exception.
Qed.

Lemma scrape_loop_batch w self proxies urls results st :
  scrape_loop w self proxies urls results st
  = (Ok (results ++ (batch w self proxies urls st).1)%list,
     (batch w self proxies urls st).2).
Proof.
  revert results st. induction urls as [|url urls IH]; intros results st;
    cbn [scrape_loop batch fst snd].
  - by rewrite app_nil_r.
  - rewrite scrape_one_batch, IH. by rewrite <- app_assoc.
Qed.

(** [scrape_profiles] returns the records of the batch, whatever happens
    to each URL. *)
Lemma scrape_profiles_batch w self urls proxy_group st :
  scrape_profiles w self urls proxy_group st
  = (Ok (batch w self (_resolve_proxies self proxy_group) urls st).1,
     (batch w self (_resolve_proxies self proxy_group) urls st).2).
Proof.
  unfold scrape_profiles. destruct urls as [|url urls]; [done|].
  by rewrite scrape_loop_batch.
Qed.

Lemma batch_app w self proxies pre post st :
  batch w self proxies (pre ++ post) st
  = (((batch w self proxies pre st).1
      ++ (batch w self proxies post (batch w self proxies pre st).2).1)%list,
     (batch w self proxies post (batch w self proxies pre st).2).2).
Proof.
  revert st. induction pre as [|url pre IH]; intros st; cbn [batch app fst snd].
  - by destruct (batch w self proxies post st).
  - by rewrite IH.
Qed.

Lemma ld_offer_profile node : ld_offer node "company_profile" = None.
Proof.
  destruct (ld_offer node "company_profile") as [v|] eqn:E; [|done].
  apply ld_offer_fields in E. simpl in E. intuition congruence.
Qed.

Lemma parse_company_lookup w html url r :
  _parse_company w html url = Ok r ->
  r !! "company_profile" = Some (VStr url)
  /\ forall key, is_Some (empty_company url !! key) -> is_Some (r !! key).
Proof.
  unfold _parse_company.
  destruct (make_soup w html) as [soup|]; [|done]. cbn [bind].
  destruct (_parse_from_json_ld w soup (empty_company url)) as [t1|] eqn:E1; [|done].
  cbn [bind]. destruct (parse_from_meta_and_title_fills soup t1) as [t2 [-> F]].
  cbn [bind]. intros [= <-].
  apply parse_from_json_ld_written in E1 as [nodes [W _]]. split.
  - rewrite (fills_other _ _ _ _ F) by not_a_field.
    rewrite (W "company_profile"), writes_none; [done|].
    apply List.Forall_forall. intros offer [node [<- _]]%in_map_iff.
    apply ld_offer_profile.
  - intros key H. assert (is_Some (t1 !! key)) as H1
      by (rewrite (W key); by apply writes_is_Some).
    destruct (F key) as [-> |(_ & _ & v & -> & _)]; [done|by exists v].
Qed.

Lemma empty_company_fields url :
  Forall (fun field => is_Some (empty_company url !! field)) company_fields.
Proof.
  unfold company_fields.
  repeat (apply List.Forall_cons; [vm_compute; by eexists|]). apply List.Forall_nil.
Qed.

Lemma record_for_profile w url fetched :
  record_for w url fetched !! "company_profile" = Some (VStr url).
Proof.
  unfold record_for. destruct fetched as [html|exc]; cbn [bind]; [|done].
  destruct (_parse_company w html url) as [company|exc] eqn:E; [|done].
  by apply parse_company_lookup in E as [? _].
Qed.

Lemma record_for_shape w url fetched :
  Forall (fun field => is_Some (record_for w url fetched !! field)) company_fields
  \/ exists exc, record_for w url fetched = skeleton url exc.
Proof.
  unfold record_for. destruct fetched as [html|exc]; cbn [bind]; [|right; by exists exc].
  destruct (_parse_company w html url) as [company|exc] eqn:E; [|right; by exists exc].
  left. apply parse_company_lookup in E as [_ H].
  eapply Forall_impl; [apply empty_company_fields|]. intros field. apply H.
Qed.

(** C2: [scrape_profiles] returns one record per input URL, in order, and
    the record of a URL holds that URL as [company_profile], whether the
    page was parsed or the URL failed. *)
Theorem one_record_per_url w self urls proxy_group st :
  exists records st',
    scrape_profiles w self urls proxy_group st = (Ok records, st')
    /\ length records = length urls
    /\ Forall2 (fun url r => r !! "company_profile" = Some (VStr url)) urls records.
Proof.
  rewrite scrape_profiles_batch. eexists _, _. split; [done|].
  generalize (_resolve_proxies self proxy_group). intros proxies.
  assert (Forall2 (fun url r => r !! "company_profile" = Some (VStr url)) urls
            (batch w self proxies urls st).1) as H.
  { revert st. induction urls as [|url urls IH]; intros st; cbn [batch fst snd].
    - constructor.
    - constructor; [apply record_for_profile|apply IH]. }
  split; [|done]. symmetry. by eapply Forall2_length.
Qed.

(** C3, the claim as stated, fails: the record returned for a URL whose
    fetch fails has no field [company_website]. *)
Lemma skeleton_lacks_fields :
  match (scrape_profiles sample_world default_scraper [down_url] None initial_state).1 with
  | Ok [r] => r !! "company_website" = None /\ r !! "company_profile" = Some (VStr down_url)
  | _ => False
  end.
Proof. by vm_compute. Qed.

Lemma batch_length w self proxies urls st :
  length (batch w self proxies urls st).1 = length urls.
Proof.
  revert st. induction urls as [|url urls IH]; intros st; cbn [batch fst length]; [done|].
  by rewrite IH.
Qed.

(** C3, amended: the record returned for a URL whose page was fetched and
    parsed is the parsed company, which holds the 22 fields of a Company
    Record; the record returned for a URL whose fetch or parse raised is
    the skeleton, which holds [company_name], [company_profile] and
    [error] and none of the other 20 fields.  Here the URL stands
    anywhere in the batch, after the URLs [before] and ahead of the URLs
    [after]. *)
Theorem records_are_full_or_skeleton w self proxy_group before url after st :
  let proxies := _resolve_proxies self proxy_group in
  let st1 := (scrape_profiles w self before proxy_group st).2 in
  let fetched := _fetch_company_page w self url proxies st1 in
  exists records st',
    scrape_profiles w self (before ++ url :: after) proxy_group st = (Ok records, st')
    /\ Forall2 (fun url r =>
                  Forall (fun field => is_Some (r !! field)) company_fields
                  \/ exists exc, r = skeleton url exc)
         (before ++ url :: after) records
    /\ match (html <- fetched.1 ;; _parse_company w html url) with
       | Ok company =>
           records !! length before = Some company
           /\ Forall (fun field => is_Some (company !! field)) company_fields
       | Raise exc => records !! length before = Some (skeleton url exc)
       end
    /\ (forall url exc,
          Forall (fun field => is_Some (skeleton url exc !! field))
            ["company_name"; "company_profile"; "error"]
          /\ Forall (fun field => skeleton url exc !! field = None)
               (List.skipn 2 company_fields)).
Proof.
  cbn zeta. rewrite !scrape_profiles_batch. cbn [fst snd].
  generalize (_resolve_proxies self proxy_group). intros proxies.
  eexists _, _. split; [done|]. split; [|split].
  - generalize (before ++ url :: after)%list. intros urls.
    revert st. induction urls as [|u urls IH]; intros st; cbn [batch fst snd].
    + constructor.
    + constructor; [apply record_for_shape|apply IH].
  - rewrite batch_app. cbn [batch fst snd].
    set (fetched := _fetch_company_page w self url proxies _).
    rewrite list_lookup_middle by (by rewrite batch_length).
    unfold record_for.
    destruct (html <- fetched.1 ;; _parse_company w html url) as [company|exc] eqn:E;
      [|done].
    split; [done|].
    destruct fetched.1 as [html|]; [|done]. cbn [bind] in E.
    apply parse_company_lookup in E as [_ H].
    eapply Forall_impl; [apply empty_company_fields|]. intros field. apply H.
  - intros u exc. split.
    + repeat (apply List.Forall_cons; [vm_compute; by eexists|]). apply List.Forall_nil.
    + cbn [skipn company_fields].
      repeat (apply List.Forall_cons; [by vm_compute|]). apply List.Forall_nil.
Qed.

(** C1: when the fetch of a URL raises, or its page cannot be parsed, the
    batch returns, with the skeleton of that URL between the records of
    the URLs before it and those of the URLs after it: [company_name] is
    [None], [company_profile] the URL and [error] the text of the
    exception. *)
Theorem failed_url_yields_skeleton w self proxy_group before url after st exc :
  let proxies := _resolve_proxies self proxy_group in
  let st1 := (scrape_profiles w self before proxy_group st).2 in
  let fetched := _fetch_company_page w self url proxies st1 in
  (fetched.1 = Raise exc
   \/ exists html, fetched.1 = Ok html /\ _parse_company w html url = Raise exc) ->
  exists records_before records_after st3,
    scrape_profiles w self before proxy_group st = (Ok records_before, st1)
    /\ scrape_profiles w self after proxy_group fetched.2 = (Ok records_after, st3)
    /\ scrape_profiles w self (before ++ url :: after) proxy_group st
       = (Ok (records_before ++ skeleton url exc :: records_after)%list, st3)
    /\ skeleton url exc !! "company_name" = Some VNone
    /\ skeleton url exc !! "company_profile" = Some (VStr url)
    /\ skeleton url exc !! "error" = Some (VStr (Py.str_exn exc)).
Proof.
  intros proxies st1 fetched H. subst st1 fetched proxies.
  rewrite !scrape_profiles_batch in *. cbn [fst snd] in *.
  set (proxies := _resolve_proxies self proxy_group) in *.
  set (fetched := _fetch_company_page w self url proxies _) in *.
  eexists _, _, _.
  split; [done|]. split; [done|]. split; [|by vm_compute].
  rewrite batch_app. cbn [batch fst snd]. fold fetched.
  assert (record_for w url fetched.1 = skeleton url exc) as ->; [|done].
  unfold record_for. destruct H as [-> |[html [-> E]]]; [done|].
  cbn [bind]. by rewrite E.
Qed.

Lemma failed_url_yields_skeleton_witness :
  exists records_before records_after st',
    scrape_profiles sample_world default_scraper [acme_url; down_url; acme_url] None
      initial_state
    = (Ok (records_before
           ++ skeleton down_url (Exn RequestException "connection refused")
           :: records_after)%list, st').
Proof.
  destruct (failed_url_yields_skeleton sample_world default_scraper None
              [acme_url] down_url [acme_url] initial_state
              (Exn RequestException "connection refused"))
    as (records_before & records_after & st3 & _ & _ & E & _); [left; by vm_compute|].
  exists records_before, records_after, st3. exact E.
Defined.

(** * Further properties *)

(** ** Whitespace normalization *)

Lemma strip_idempotent s : Str.strip (Str.strip s) = Str.strip s.
Proof.
  unfold Str.strip.
  rewrite (lstrip_by_fixed _ (Str.rstrip_by _ _)).
  - apply rstrip_by_idempotent.
  - apply rstrip_by_head, lstrip_by_head.
Qed.

Lemma strip_nonempty s :
  Str.nonempty (Str.strip s) = any_char (fun a => negb (Str.isspace a)) s.
Proof. unfold Str.strip. by rewrite rstrip_by_nonempty_iff, lstrip_by_any. Qed.

Lemma collapsed_weaken s : collapsed true s = true -> collapsed false s = true.
Proof.
  destruct s as [|a s]; simpl; [done|].
  destruct (Str.isspace a); [|done]. by rewrite andb_false_r.
Qed.

Lemma sub_spaces_collapsed in_run s :
  collapsed in_run (Str.sub_spaces in_run s) = true.
Proof.
  revert in_run. induction s as [|a s IH]; intros in_run; simpl; [done|].
  destruct (Str.isspace a) eqn:S.
  - destruct in_run; [apply IH|]. simpl. by rewrite IH.
  - simpl. rewrite S. apply IH.
Qed.

Lemma sub_spaces_fixed in_run s :
  collapsed in_run s = true -> Str.sub_spaces in_run s = s.
Proof.
  revert in_run. induction s as [|a s IH]; intros in_run; simpl; [done|].
  destruct (Str.isspace a).
  - intros [[->%Ascii.eqb_eq ->%negb_true_iff]%andb_true_iff H]%andb_true_iff.
    by rewrite IH.
  - intros H. by rewrite IH.
Qed.

Lemma lstrip_collapsed b s :
  collapsed b s = true -> collapsed false (Str.lstrip_by Str.isspace s) = true.
Proof.
  revert b. induction s as [|a s IH]; intros b; simpl; [done|].
  destruct (Str.isspace a) eqn:S.
  - intros [_ H]%andb_true_iff. by eapply IH.
  - intros H. simpl. by rewrite S.
Qed.

Lemma rstrip_collapsed b s :
  collapsed b s = true -> collapsed b (Str.rstrip_by Str.isspace s) = true.
Proof.
  revert b. induction s as [|a s IH]; intros b; simpl; [done|].
  destruct (Str.isspace a) eqn:S.
  - intros [Ha H]%andb_true_iff. apply IH in H.
    destruct (Str.rstrip_by Str.isspace s) eqn:E; cbn [collapsed]; rewrite ?S, ?Ha; done.
  - intros H. apply IH in H.
    destruct (Str.rstrip_by Str.isspace s) eqn:E; cbn [collapsed]; rewrite ?S; done.
Qed.

Lemma clean_text_eq v s :
  clean_text v = Some s ->
  s = Str.strip (Str.sub_spaces false (Py.str v)) /\ Str.nonempty s = true.
Proof.
  unfold clean_text. destruct v; try done.
  all: destruct (Str.nonempty _) eqn:E; [|done]; by intros [= <-].
Qed.

(** X1: the text [clean_text] returns is normalized: it is not empty, has
    no blank at either end, its only blanks are single spaces, and
    [clean_text] leaves it as it is. *)
Theorem clean_text_normal_form v s :
  clean_text v = Some s ->
  Str.nonempty s = true
  /\ Str.strip s = s
  /\ collapsed false s = true
  /\ clean_text (VStr s) = Some s.
Proof.
  intros [-> N]%clean_text_eq.
  set (s := Str.strip _) in *.
  assert (Str.strip s = s) as S by apply strip_idempotent.
  assert (collapsed false s = true) as C.
  { unfold s, Str.strip.
    apply rstrip_collapsed, (lstrip_collapsed false), sub_spaces_collapsed. }
  repeat split; try done.
  unfold clean_text. cbn [Py.str]. rewrite (sub_spaces_fixed _ _ C), S. by rewrite N.
Qed.

Lemma clean_text_normal_form_witness :
  clean_text (VStr "  Acme   Corp ") = Some "Acme Corp"
  /\ clean_text (VStr "Acme Corp") = Some "Acme Corp".
Proof.
  assert (clean_text (VStr "  Acme   Corp ") = Some "Acme Corp") as H by (by vm_compute).
  split; [exact H|].
  exact (proj2 (proj2 (proj2 (clean_text_normal_form _ _ H)))).
Defined.

Lemma sub_spaces_any in_run s :
  any_char (fun a => negb (Str.isspace a)) (Str.sub_spaces in_run s)
  = any_char (fun a => negb (Str.isspace a)) s.
Proof.
  revert in_run. induction s as [|a s IH]; intros in_run; simpl; [done|].
  destruct (Str.isspace a) eqn:S; simpl.
  - destruct in_run; simpl; [apply IH|]. by rewrite IH.
  - by rewrite S, IH.
Qed.

(** X2: [clean_text] returns [None] for a string exactly when the string
    is blank: empty, or made of whitespace only. *)
Theorem clean_text_none_iff_blank s :
  clean_text (VStr s) = None <-> any_char (fun a => negb (Str.isspace a)) s = false.
Proof.
  unfold clean_text. cbn [Py.str]. rewrite <- (sub_spaces_any false s), <- strip_nonempty.
  by destruct (Str.nonempty _).
Qed.

Lemma clean_text_none_iff_blank_witness :
  clean_text (VStr (String " " (String (Str.chr 10) (String (Str.chr 160) "")))) = None.
Proof. apply clean_text_none_iff_blank. by vm_compute. Defined.

(** ** Years and counters *)

Lemma isdecimal_cases a :
  Str.isdecimal a = true ->
  In a ["0"; "1"; "2"; "3"; "4"; "5"; "6"; "7"; "8"; "9"]%char.
Proof.
  destruct a as [[] [] [] [] [] [] [] []]; vm_compute; (discriminate || tauto).
Qed.

Lemma search_year_shape after_word s group :
  search_year after_word s = Some group ->
  any_char Str.isdecimal s = true
  /\ exists c1 c2 d1 d2,
       group = String c1 (String c2 (String d1 (String d2 "")))
       /\ ((c1 = "1"%char /\ c2 = "9"%char) \/ (c1 = "2"%char /\ c2 = "0"%char))
       /\ Str.isdecimal d1 = true /\ Str.isdecimal d2 = true.
Proof.
  revert after_word. induction s as [|a s IH]; intros after_word; [done|].
  assert (forall b, search_year b s = Some group ->
            any_char Str.isdecimal (String a s) = true
            /\ exists c1 c2 d1 d2,
                 group = String c1 (String c2 (String d1 (String d2 "")))
                 /\ ((c1 = "1"%char /\ c2 = "9"%char) \/ (c1 = "2"%char /\ c2 = "0"%char))
                 /\ Str.isdecimal d1 = true /\ Str.isdecimal d2 = true) as Next.
  { intros b H. apply IH in H as [D H]. split; [|done].
    cbn [any_char]. rewrite D. apply orb_true_r. }
  cbn [search_year].
  destruct s as [|c2 [|d1 [|d2 rest]]]; try apply Next.
  destruct (_ && _) eqn:C; [|apply Next].
  intros [= <-].
  apply andb_true_iff in C as [C _].
  apply andb_true_iff in C as [C D2]. apply andb_true_iff in C as [C D1].
  apply andb_true_iff in C as [_ C].
  assert ((a = "1"%char /\ c2 = "9"%char) \/ (a = "2"%char /\ c2 = "0"%char)) as Hc.
  { apply orb_true_iff in C as [C|C]; apply andb_true_iff in C as [C1 C2];
      apply Ascii.eqb_eq in C1, C2; auto. }
  split; [by destruct Hc as [[-> _]|[-> _]]|].
  exists a, c2, d1, d2. split; [by destruct rest|done].
Qed.

Lemma extract_year_in_range text :
  extract_year text = Ok VNone
  \/ exists year, extract_year text = Ok (VInt year) /\ 1900 <= year <= 2099.
Proof.
  unfold extract_year. destruct (Str.nonempty text); cbn [negb]; [|by left].
  destruct (search_year false text) as [group|] eqn:E; [|by left].
  apply search_year_shape in E as (D & c1 & c2 & d1 & d2 & -> & C & D1 & D2).
  apply isdecimal_cases in D1, D2. cbn [In] in D1, D2. right.
  destruct C as [[-> ->]|[-> ->]];
    repeat (destruct D1 as [<-|D1]; [|]); try done;
    repeat (destruct D2 as [<-|D2]; [|]); try done;
    (eexists; split; [vm_compute; reflexivity|lia]).
Qed.

(** X3: [extract_year] returns [None] or an integer from 1900 to 2099, and
    [None] for a text with no digit. *)
Theorem extract_year_range text :
  (extract_year text = Ok VNone
   \/ exists year, extract_year text = Ok (VInt year) /\ 1900 <= year <= 2099)
  /\ (any_char Str.isdecimal text = false -> extract_year text = Ok VNone).
Proof.
  split; [apply extract_year_in_range|].
  unfold extract_year. destruct (Str.nonempty text); cbn [negb]; [|done].
  destruct (search_year false text) as [group|] eqn:E; [|done].
  apply search_year_shape in E as [D _]. by rewrite D.
Qed.

Lemma extract_year_range_witness :
  any_char Str.isdecimal "est. MCMXCVIII" = false
  /\ extract_year "est. MCMXCVIII" = Ok VNone.
Proof.
  assert (any_char Str.isdecimal "est. MCMXCVIII" = false) as H by (by vm_compute).
  split; [exact H|]. exact (proj2 (extract_year_range _) H).
Defined.

Lemma remove_idempotent c s : Str.remove c (Str.remove c s) = Str.remove c s.
Proof.
  induction s as [|a s IH]; simpl; [done|].
  destruct (Ascii.eqb a c) eqn:E; [done|]. simpl. by rewrite E, IH.
Qed.

(** X4: [safe_int] ignores commas wherever they stand in a string: the
    string and the string without its commas coerce to the same value. *)
Theorem safe_int_ignores_commas s :
  safe_int (VStr s) = safe_int (VStr (Str.remove "," s)).
Proof.
  unfold safe_int, int_of_text. cbn [Py.str]. by rewrite remove_idempotent.
Qed.

(** The tokens of the loop of [_extract_number_near_keyword]: those still
    to read, after the one before them. *)
Lemma number_before_found keyword tokens prev z :
  number_before keyword prev tokens = Ok (VInt z) ->
  exists before candidate token after,
    (match prev with Some p => p :: tokens | None => tokens end)
    = (before ++ candidate :: token :: after)%list
    /\ Str.contains keyword (Str.lower token) = true
    /\ safe_int (VStr (Str.rstrip suffix_chars candidate)) = Ok (VInt z).
Proof.
  revert prev. induction tokens as [|token tokens IH]; intros prev;
    cbn [number_before]; [done|].
  assert (number_before keyword (Some token) tokens = Ok (VInt z) ->
          exists before candidate token' after,
            (match prev with Some p => p :: token :: tokens | None => token :: tokens end)
            = (before ++ candidate :: token' :: after)%list
            /\ Str.contains keyword (Str.lower token') = true
            /\ safe_int (VStr (Str.rstrip suffix_chars candidate)) = Ok (VInt z)) as Next.
  { intros H. apply IH in H as (before & candidate & token' & after & E & H).
    destruct prev as [p|].
    - exists (p :: before), candidate, token', after. by rewrite E.
    - by exists before, candidate, token', after. }
  destruct prev as [candidate|]; [|apply Next].
  destruct (Str.contains keyword (Str.lower token)) eqn:C; [|apply Next].
  destruct (safe_int_str_cases (Str.rstrip suffix_chars candidate)) as [E|[z' E]];
    rewrite E; cbn [bind]; [apply Next|].
  intros [= ->]. by exists [], candidate, token, tokens.
Qed.

(** X5: a number found by [_extract_number_near_keyword] is the coercion
    of a token, its trailing [+] and middle dots stripped, that stands
    right before a token containing the keyword in any letter case; the
    result is never a string or a boolean. *)
Theorem extract_number_is_before_keyword text keyword :
  (_extract_number_near_keyword text keyword = Ok VNone
   \/ exists z, _extract_number_near_keyword text keyword = Ok (VInt z))
  /\ forall z,
       _extract_number_near_keyword text keyword = Ok (VInt z) ->
       exists before candidate token after,
         Str.split_ws text = (before ++ candidate :: token :: after)%list
         /\ Str.contains (Str.lower keyword) (Str.lower token) = true
         /\ safe_int (VStr (Str.rstrip suffix_chars candidate)) = Ok (VInt z).
Proof.
  unfold _extract_number_near_keyword. split; [apply number_before_cases|].
  intros z H. by apply number_before_found in H.
Qed.

Lemma extract_number_is_before_keyword_witness :
  exists before candidate token after,
    Str.split_ws "Acme 10,001+ Employees on LinkedIn"
    = (before ++ candidate :: token :: after)%list
    /\ Str.contains "employees" (Str.lower token) = true
    /\ safe_int (VStr (Str.rstrip suffix_chars candidate)) = Ok (VInt 10001).
Proof.
  apply (proj2 (extract_number_is_before_keyword
                  "Acme 10,001+ Employees on LinkedIn" "employees") 10001).
  by vm_compute.
Defined.

Lemma number_before_absent keyword tokens prev :
  Forall (fun token => Str.contains keyword (Str.lower token) = false) tokens ->
  number_before keyword prev tokens = Ok VNone.
Proof.
  intros H. revert prev. induction H as [|token tokens C _ IH]; intros prev;
    cbn [number_before]; [done|].
  destruct prev; [|apply IH]. rewrite C. apply IH.
Qed.

(** X6: [_extract_number_near_keyword] returns [None] when no token but
    the first contains the keyword: a keyword that opens the text has no
    token before it. *)
Theorem extract_number_needs_a_token_before text keyword :
  Forall (fun token => Str.contains (Str.lower keyword) (Str.lower token) = false)
    (List.tl (Str.split_ws text)) ->
  _extract_number_near_keyword text keyword = Ok VNone.
Proof.
  unfold _extract_number_near_keyword.
  destruct (Str.split_ws text) as [|first tokens]; [done|].
  cbn [List.tl number_before]. apply number_before_absent.
Qed.

Lemma extract_number_needs_a_token_before_witness :
  _extract_number_near_keyword "followers: 1,234" "followers" = Ok VNone.
Proof.
  apply extract_number_needs_a_token_before. vm_compute. repeat constructor.
Defined.

(** ** Meta tags, the title and proxies *)

Lemma find_meta_some soup attr key tag :
  find_meta soup attr key = Some tag ->
  In tag (meta_tags soup) /\ attr tag = Some key.
Proof.
  unfold find_meta. intros [I H]%find_some. split; [done|].
  destruct (attr tag) as [v|]; [|done]. by apply String.eqb_eq in H as ->.
Qed.

(** X7: the content [_find_meta_content] returns is not empty, and it is
    the [content] of a [<meta>] tag of the document whose [name] or
    [property] is one of the keys. *)
Theorem find_meta_content_sound soup keys content :
  _find_meta_content soup keys = Some content ->
  Str.nonempty content = true
  /\ exists tag key,
       In key keys /\ In tag (meta_tags soup) /\ meta_content tag = Some content
       /\ (meta_name tag = Some key \/ meta_property tag = Some key).
Proof.
  induction keys as [|key keys IH]; [done|]. cbn [_find_meta_content].
  assert (_find_meta_content soup keys = Some content ->
          Str.nonempty content = true
          /\ exists tag key',
               In key' (key :: keys) /\ In tag (meta_tags soup)
               /\ meta_content tag = Some content
               /\ (meta_name tag = Some key' \/ meta_property tag = Some key')) as Next.
  { intros H. apply IH in H as [N (tag & key' & I & H)]. split; [done|].
    exists tag, key'. split; [by right|done]. }
  destruct (find_meta soup meta_name key) as [tag|] eqn:E1.
  - destruct tag as [n p [c|]]; [|done].
    destruct (Str.nonempty c) eqn:N; [|done]. intros [= <-]. split; [done|].
    apply find_meta_some in E1 as [I H]. eexists _, key. split; [by left|].
    split; [exact I|]. split; [done|by left].
  - destruct (find_meta soup meta_property key) as [tag|] eqn:E2; [|done].
    destruct tag as [n p [c|]]; [|done].
    destruct (Str.nonempty c) eqn:N; [|done]. intros [= <-]. split; [done|].
    apply find_meta_some in E2 as [I H]. eexists _, key. split; [by left|].
    split; [exact I|]. split; [done|by right].
Qed.

Lemma find_meta_content_sound_witness :
  exists tag key,
    In key ["og:title"; "twitter:title"] /\ In tag (meta_tags acme_soup)
    /\ meta_content tag = Some "Acme Inc: rockets for everyone"
    /\ (meta_name tag = Some key \/ meta_property tag = Some key).
Proof.
  apply (find_meta_content_sound acme_soup ["og:title"; "twitter:title"]).
  by vm_compute.
Defined.

(** X8: the keys are tried in order: over [keys ++ more], the content is
    the one found over [keys], and the one found over [more] only when
    [keys] give none. *)
Theorem find_meta_content_app soup keys more :
  _find_meta_content soup (keys ++ more)
  = match _find_meta_content soup keys with
    | Some content => Some content
    | None => _find_meta_content soup more
    end.
Proof.
  induction keys as [|key keys IH]; [done|]. cbn [app _find_meta_content].
  destruct (match find_meta soup meta_name key with
            | Some tag => Some tag
            | None => find_meta soup meta_property key
            end) as [[n p [c|]]|]; try done.
  by destruct (Str.nonempty c).
Qed.

(** X9: [_resolve_proxies] returns a proxy mapping exactly when a group
    is requested by a non-empty name, and the settings have under that
    name a mapping that is not empty; it returns that mapping. *)
Theorem resolve_proxies_some_iff self proxy_group proxies :
  _resolve_proxies self proxy_group = Some proxies
  <-> exists group groups,
        proxy_group = Some group /\ group <> ""
        /\ proxy_groups self = Some groups
        /\ assoc_get groups group = Some proxies /\ proxies <> [].
Proof.
  unfold _resolve_proxies. split.
  - destruct proxy_group as [group|]; [|done].
    destruct (proxy_groups self) as [[|g groups]|]; try done.
    destruct (Str.nonempty group) eqn:N; [|done].
    destruct (assoc_get (g :: groups) group) as [[|p ps]|] eqn:E; try done.
    intros [= <-]. exists group, (g :: groups).
    split; [done|]. split; [by intros ->|]. split; [done|]. split; [exact E|done].
  - intros (group & groups & -> & N & -> & E & P).
    destruct groups as [|g groups]; [done|].
    destruct group; [done|]. cbn [Str.nonempty]. rewrite E. by destruct proxies.
Qed.

Lemma resolve_proxies_some_iff_witness :
  _resolve_proxies
    (Scraper 15 3 (3 # 2) "agent"
       (Some [("residential", [("https", "http://proxy.example:8080")]); ("none", [])]))
    (Some "residential")
  = Some [("https", "http://proxy.example:8080")].
Proof.
  apply resolve_proxies_some_iff.
  exists "residential",
    [("residential", [("https", "http://proxy.example:8080")]); ("none", [])].
  repeat split; done.
Defined.

Lemma split_on_fields c s :
  Forall (fun field => any_char (fun a => Ascii.eqb a c) field = false) (Str.split_on c s).
Proof.
  induction s as [|a s IH]; simpl; [by repeat constructor|].
  destruct (Str.split_on c s) as [|field fields]; [by repeat constructor|].
  apply Forall_cons in IH as [F Fs].
  destruct (Ascii.eqb a c) eqn:E; repeat (apply List.Forall_cons); try done.
  simpl. by rewrite E.
Qed.

(** A piece of a title is not empty, has no blank at either end and no
    [|] in it. *)
Lemma title_pieces_are_trimmed_fields title :
  Forall (fun piece =>
            Str.nonempty piece = true
            /\ Str.strip piece = piece
            /\ any_char (fun a => Ascii.eqb a "|") piece = false)
    (title_pieces title).
Proof.
  unfold title_pieces. apply List.Forall_forall.
  intros piece [[field [<- I]]%in_map_iff N]%filter_In.
  split; [done|]. split; [apply strip_idempotent|].
  pose proof (split_on_fields "|" title) as F.
  rewrite List.Forall_forall in F. specialize (F field I).
  destruct (any_char _ (Str.strip field)) eqn:A; [|done].
  unfold Str.strip in A. apply any_rstrip_by, any_lstrip_by in A. congruence.
Qed.

(** X10: the name that [_parse_from_meta_and_title] takes from the title
    replaces only an unset name, and is a piece of the normalized title:
    not empty, with no blank at either end and no [|]. *)
Theorem name_from_title_is_first_piece soup (t : record) name :
  meta_name_from_title soup t !! "company_name" = Some (VStr name) ->
  t !! "company_name" = Some (VStr name)
  \/ (unset t "company_name" = true
      /\ Str.nonempty name = true /\ Str.strip name = name
      /\ any_char (fun a => Ascii.eqb a "|") name = false
      /\ exists raw title rest,
           title_string soup = Some raw /\ clean_text (VStr raw) = Some title
           /\ title_pieces title = name :: rest).
Proof.
  unfold meta_name_from_title.
  destruct (unset t "company_name") eqn:U; [|by left].
  destruct (title_string soup) as [raw|]; [|by left].
  destruct (Str.nonempty raw); [|by left].
  destruct (clean_text (VStr raw)) as [title|] eqn:C; [|by left].
  destruct (title_pieces title) as [|first rest] eqn:E; [by left|].
  rewrite lookup_insert_eq. intros [= ->]. right. split; [done|].
  pose proof (title_pieces_are_trimmed_fields title) as F. rewrite E in F.
  apply Forall_cons in F as [(N & S & A) _].
  repeat split; try done. by exists raw, title, rest.
Qed.

Lemma name_from_title_is_first_piece_witness :
  meta_name_from_title acme_soup (empty_company acme_url) !! "company_name"
  = Some (VStr "Acme Inc")
  /\ any_char (fun a => Ascii.eqb a "|") "Acme Inc" = false.
Proof.
  assert (meta_name_from_title acme_soup (empty_company acme_url) !! "company_name"
          = Some (VStr "Acme Inc")) as H by (by vm_compute).
  split; [exact H|].
  destruct (name_from_title_is_first_piece _ _ _ H) as [E|(_ & _ & _ & A & _)];
    [by vm_compute in E|exact A].
Defined.

(** ** The fetcher, in general *)



Section Fetch.
Variables (w : world) (self : LinkedInCompanyScraper) (url : string)
  (proxies : option proxy_map).

(** The sleep of the loop, by its outcome: a sleep that returns is
    recorded, a sleep that is refused is not. *)
Lemma sleep_backoff_cases attempt st :
  match backoff_sleep self attempt (random_uniform w (draws st)) with
  | Ok _ =>
      sleep_backoff w self attempt st
      = (Ok tt,
         State (requests st)
           (sleeps st ++ [(Qmult (backoff_factor self) (inject_Z (2 ^ (attempt - 1))),
                           random_uniform w (draws st))])
           (S (draws st)))
  | Raise exc =>
      exists st', sleep_backoff w self attempt st = (Raise exc, st')
        /\ requests st' = requests st /\ sleeps st' = sleeps st
        /\ (draws st <= draws st' <= S (draws st))%nat
  end.
Proof.
  unfold backoff_sleep, sleep_backoff, backoff_delay.
  destruct (1024 <=? attempt - 1); cbn [bind].
  - eexists. split; [done|]. repeat split; lia.
  - destruct (time_sleep _) as [[]|exc]; [done|].
    eexists. split; [done|]. cbn [requests sleeps draws]. repeat split; lia.
Qed.

(** One turn of the loop: after a failed attempt the sleep, and the
    attempts that remain if the sleep returns; otherwise the end. *)
Lemma fetch_attempts_step attempt rest last_exc st :
  let st1 := State (S (requests st)) (sleeps st) (draws st) in
  if attempt_fails w self url proxies (requests st)
  then exists last,
         (last = last_exc
          \/ session_get w (requests st) url (timeout self) proxies
             = match last with Some exc => Raise exc | None => Ok (Response 0 "") end)
         /\ fetch_attempts w self url proxies (attempt :: rest) last_exc st
            = match sleep_backoff w self attempt st1 with
              | (Ok _, st2) => fetch_attempts w self url proxies rest last st2
              | (Raise refusal, st2) => (Raise refusal, st2)
              end
  else fetch_attempts w self url proxies (attempt :: rest) last_exc st
       = (match session_get w (requests st) url (timeout self) proxies with
          | Ok resp => Ok (text resp)
          | Raise exc => Raise exc
          end, st1).
Proof.
  cbn zeta. unfold attempt_fails. cbn [fetch_attempts].
  destruct (session_get w (requests st) url (timeout self) proxies) as [resp|exc].
  - destruct (_ && _); cbn [negb]; [done|]. exists last_exc. split; [by left|done].
  - destruct (exn_isinstance exc RequestException); [|done].
    exists (Some exc). split; [by right|done].
Qed.

Lemma ends_at_stop n sleep :
  attempt_fails w self url proxies n = false ->
  ends_at w self url proxies n sleep
    match session_get w n url (timeout self) proxies with
    | Ok resp => Ok (text resp)
    | Raise exc => Raise exc
    end.
Proof.
  unfold attempt_fails, ends_at.
  destruct (session_get w n url (timeout self) proxies) as [resp|exc].
  - destruct (_ && _); [done|discriminate].
  - by intros ->.
Qed.

Lemma ends_at_refused n sleep refusal :
  attempt_fails w self url proxies n = true ->
  sleep = Raise refusal ->
  ends_at w self url proxies n sleep (Raise refusal).
Proof.
  unfold attempt_fails, ends_at.
  destruct (session_get w n url (timeout self) proxies) as [resp|exc].
  - destruct (_ && _); [discriminate|]. intros _ ->. by exists refusal.
  - intros -> ->. by exists refusal.
Qed.

(** What a run of the loop over the attempts [k0 + 1], ..., [k0 + m]
    leaves behind.  It goes through [k] failed attempts, each followed by
    its sleep, and then either the attempts are exhausted, or the fetch
    ends at the next attempt. *)
Lemma fetch_attempts_trace (m : nat) : forall (k0 : nat) last_exc st,
  let run := fetch_attempts w self url proxies
               (seqZ (Z.of_nat k0 + 1) (Z.of_nat m)) last_exc st in
  exists k : nat,
    (k <= m)%nat
    /\ (forall i, (i < k)%nat -> attempt_fails w self url proxies (requests st + i) = true)
    /\ sleeps run.2
       = (sleeps st
          ++ map (fun i => (Qmult (backoff_factor self) (inject_Z (2 ^ Z.of_nat (k0 + i))),
                            random_uniform w (draws st + i)))
               (seq 0 k))%list
    /\ ((k = m /\ requests run.2 = (requests st + k)%nat
         /\ exists exc,
              run.1 = Raise exc
              /\ (last_exc = Some exc
                  \/ exc = Exn RuntimeError ("Failed to fetch " +:+ url)
                  \/ exists i, (i < k)%nat
                       /\ session_get w (requests st + i) url (timeout self) proxies
                          = Raise exc))
        \/ ((k < m)%nat /\ requests run.2 = (requests st + k + 1)%nat
            /\ ends_at w self url proxies (requests st + k)
                 (backoff_sleep self (Z.of_nat (k0 + k) + 1) (random_uniform w (draws st + k)))
                 run.1)).
Proof.
  induction m as [|m IH]; intros k0 last_exc st.
  - exists 0%nat. cbn. rewrite app_nil_r, Nat.add_0_r.
    split; [lia|]. split; [intros; lia|]. split; [done|]. left.
    split; [done|]. split; [done|].
    destruct last_exc as [exc|]; eexists; (split; [done|]); auto.
  - cbn zeta. rewrite seqZ_cons by lia.
    replace (Z.pred (Z.of_nat (S m))) with (Z.of_nat m) by lia.
    replace (Z.succ (Z.of_nat k0 + 1)) with (Z.of_nat (S k0) + 1) by lia.
    pose proof (fetch_attempts_step (Z.of_nat k0 + 1)
                  (seqZ (Z.of_nat (S k0) + 1) (Z.of_nat m)) last_exc st) as Step.
    cbn zeta in Step.
    destruct (attempt_fails w self url proxies (requests st)) eqn:F.
    + destruct Step as (last & Hlast & ->).
      pose proof (sleep_backoff_cases (Z.of_nat k0 + 1)
                    (State (S (requests st)) (sleeps st) (draws st))) as Sl.
      cbn [draws requests sleeps] in Sl.
      destruct (backoff_sleep self (Z.of_nat k0 + 1) (random_uniform w (draws st)))
        as [[]|refusal] eqn:B.
      * rewrite Sl. 
        match goal with
        | |- context [fetch_attempts w self url proxies _ last ?s] => set (st2 := s)
        end.
        destruct (IH (S k0) last st2) as (k & L & A & Sq & O).
        exists (S k). split; [lia|]. split.
        { intros [|i] Hi; [by rewrite Nat.add_0_r|].
          specialize (A i ltac:(lia)). cbn [requests st2] in A.
          by replace (requests st + S i)%nat with (S (requests st) + i)%nat by lia. }
        split.
        { rewrite Sq. cbn [sleeps st2 draws]. rewrite <- app_assoc. f_equal.
          cbn [seq map app]. rewrite !Nat.add_0_r.
          replace (Z.of_nat k0 + 1 - 1) with (Z.of_nat k0) by lia. f_equal.
          rewrite <- seq_shift, map_map. apply map_ext. intros i.
          replace (k0 + S i)%nat with (S k0 + i)%nat by lia.
          by replace (draws st + S i)%nat with (S (draws st) + i)%nat by lia. }
        cbn [requests st2 draws] in O.
        destruct O as [(-> & R & exc & E & Hexc)|(Lt & R & E)]; [left|right].
        -- split; [done|]. split; [lia|]. exists exc. split; [done|].
           destruct Hexc as [->|[->|(i & Hi & Hexc)]].
           ++ destruct Hlast as [->|Hlast]; [by left|].
              right. right. exists 0%nat. split; [lia|]. by rewrite Nat.add_0_r.
           ++ right. by left.
           ++ right. right. exists (S i). split; [lia|].
              by replace (requests st + S i)%nat with (S (requests st) + i)%nat by lia.
        -- split; [lia|]. split; [lia|].
           replace (requests st + S k)%nat with (S (requests st) + k)%nat by lia.
           replace (draws st + S k)%nat with (S (draws st) + k)%nat by lia.
           by replace (k0 + S k)%nat with (S k0 + k)%nat by lia.
      * destruct Sl as (st' & -> & R & S' & _). exists 0%nat.
        cbn [seq map fst snd]. rewrite app_nil_r.
        destruct st' as [r s d]. cbn [requests sleeps] in *. subst r s.
        split; [lia|]. split; [intros; lia|]. split; [done|]. right.
        split; [lia|]. split; [lia|]. rewrite !Nat.add_0_r.
        by apply ends_at_refused.
    + rewrite Step. exists 0%nat. cbn [seq map fst snd requests sleeps].
      rewrite app_nil_r. split; [lia|]. split; [intros; lia|]. split; [done|]. right.
      split; [lia|]. split; [lia|]. rewrite !Nat.add_0_r. by apply ends_at_stop.
Qed.
End Fetch.

Lemma seqZ_to_nat m len : seqZ m len = seqZ m (Z.of_nat (Z.to_nat len)).
Proof. unfold seqZ. by rewrite Nat2Z.id. Qed.

(** X11: a fetch goes through a number of failed attempts and sleeps
    once after each of them, the [k]-th time for
    [backoff_factor * 2 ** (k - 1)] seconds plus the next draw of jitter.
    Then either the attempts are exhausted, and the fetch has slept as
    many times as it has sent requests, the last attempt included; or the
    fetch ends at the next attempt, without a sleep after it: the
    response is returned, the transport raises something else than a
    [RequestException], or the attempt fails and [time.sleep] refuses the
    duration. *)
Theorem fetch_backoff_schedule w self url proxies st :
  let run := _fetch_company_page w self url proxies st in
  exists failed : nat,
    (failed <= Z.to_nat (max_retries self))%nat
    /\ (forall i, (i < failed)%nat ->
                  attempt_fails w self url proxies (requests st + i) = true)
    /\ sleeps run.2
       = (sleeps st ++ map (backoff_entry w self (draws st)) (seq 0 failed))%list
    /\ ((failed = Z.to_nat (max_retries self)
         /\ requests run.2 = (requests st + failed)%nat
         /\ returns run.1 = false)
        \/ ((failed < Z.to_nat (max_retries self))%nat
            /\ requests run.2 = (requests st + failed + 1)%nat
            /\ ends_at w self url proxies (requests st + failed)
                 (backoff_sleep self (Z.of_nat failed + 1)
                    (random_uniform w (draws st + failed)))
                 run.1)).
Proof.
  unfold _fetch_company_page. rewrite seqZ_to_nat.
  destruct (fetch_attempts_trace w self url proxies (Z.to_nat (max_retries self))
              0 None st) as (k & L & A & Sq & O).
  change (Z.of_nat 0 + 1) with 1 in *. cbn [Nat.add] in *. cbn zeta.
  exists k. split; [done|]. split; [done|]. split; [exact Sq|].
  destruct O as [(-> & R & exc & -> & _)|O]; [left|right]; done.
Qed.

(** X12: the text a fetch returns is the text of a response that the
    transport gave to a request of this fetch, with a status from 200 to
    299. *)
Theorem fetch_returns_a_success w self url proxies st body :
  (_fetch_company_page w self url proxies st).1 = Ok body ->
  exists n resp,
    (requests st <= n < requests (_fetch_company_page w self url proxies st).2)%nat
    /\ session_get w n url (timeout self) proxies = Ok resp
    /\ 200 <= status_code resp < 300 /\ text resp = body.
Proof.
  unfold _fetch_company_page. rewrite seqZ_to_nat.
  destruct (fetch_attempts_trace w self url proxies (Z.to_nat (max_retries self))
              0 None st) as (k & L & A & Sq & O).
  change (Z.of_nat 0 + 1) with 1 in *. cbn [Nat.add] in *.
  intros H. rewrite H in O.
  destruct O as [(_ & _ & exc & [=] & _)|(Lt & R & E)].
  unfold ends_at in E. exists (requests st + k)%nat.
  destruct (session_get w (requests st + k) url (timeout self) proxies) as [resp|exc].
  - exists resp. destruct (_ && _) eqn:C; [|by destruct E as (? & _ & [=])].
    injection E as ->. split; [lia|]. split; [done|]. split; [lia|done].
  - destruct (exn_isinstance exc RequestException); [by destruct E as (? & _ & [=])|done].
Qed.

Lemma fetch_returns_a_success_witness :
  exists n resp,
    session_get sample_world n acme_url 15 None = Ok resp
    /\ 200 <= status_code resp < 300 /\ text resp = "<html>acme</html>".
Proof.
  destruct (fetch_returns_a_success sample_world default_scraper acme_url None
              initial_state "<html>acme</html>") as (n & resp & _ & H);
    [by vm_compute|].
  by exists n, resp.
Defined.



(** X14: with [max_retries] zero or negative, a fetch sends no request
    and does not sleep: it raises the [RuntimeError] at once, whatever
    the transport would answer. *)
Theorem fetch_without_attempts w self url proxies st :
  max_retries self <= 0 ->
  _fetch_company_page w self url proxies st
  = (Raise (Exn RuntimeError ("Failed to fetch " +:+ url)), st).
Proof.
  intros H. unfold _fetch_company_page, seqZ.
  replace (Z.to_nat (max_retries self)) with 0%nat by lia. done.
Qed.

Lemma fetch_without_attempts_witness :
  _fetch_company_page sample_world (Scraper 15 0 (3 # 2) "agent" None) acme_url None
    initial_state
  = (Raise (Exn RuntimeError ("Failed to fetch " +:+ acme_url)), initial_state).
Proof. apply fetch_without_attempts. cbn. lia. Defined.

(** [time.sleep] refuses a negative duration. *)
Lemma time_sleep_negative secs :
  (inject_Z (- (9 * 10 ^ 9)) <= secs)%Q -> (secs < 0)%Q ->
  time_sleep secs = Raise (Exn ValueError "sleep length must be non-negative").
Proof.
  intros Lo Hi. unfold time_sleep.
  set (ns := Qmult secs (inject_Z (10 ^ 9))).
  assert (ns < 0)%Q as Neg.
  { unfold ns. change (inject_Z (10 ^ 9)) with (1000000000 # 1). lra. }
  assert (inject_Z (- (9 * 10 ^ 18)) <= ns)%Q as Low.
  { unfold ns. change (inject_Z (10 ^ 9)) with (1000000000 # 1).
    change (inject_Z (- (9 * 10 ^ 18))) with (-9000000000000000000 # 1).
    change (inject_Z (- (9 * 10 ^ 9))) with (-9000000000 # 1) in Lo. lra. }
  destruct (Qle_bool 0 ns) eqn:P; [apply Qle_bool_iff in P; lra|].
  pose proof (Qfloor_le ns) as F1.
  assert (Qfloor ns < 0) as F2.
  { rewrite Zlt_Qlt. change (inject_Z 0) with 0%Q. lra. }
  pose proof (Qfloor_resp_le _ _ Low) as F3. rewrite Qfloor_Z in F3.
  destruct (Z.ltb_spec (Qfloor ns) (- 2 ^ 63)); [lia|].
  destruct (Z.leb_spec (2 ^ 63) (Qfloor ns)); [lia|]. cbn [orb].
  destruct (Z.ltb_spec (Qfloor ns) 0); [done|lia].
Qed.

(** [time.sleep] accepts a duration from zero to some centuries. *)
Lemma time_sleep_accepts secs :
  (0 <= secs)%Q -> (secs <= inject_Z (9 * 10 ^ 9) + 1)%Q -> time_sleep secs = Ok tt.
Proof.
  intros Lo Hi. unfold time_sleep.
  set (ns := Qmult secs (inject_Z (10 ^ 9))).
  assert (0 <= ns)%Q as Pos.
  { unfold ns. change (inject_Z (10 ^ 9)) with (1000000000 # 1). lra. }
  assert (ns <= inject_Z (9 * 10 ^ 18 + 10 ^ 9))%Q as High.
  { unfold ns. change (inject_Z (10 ^ 9)) with (1000000000 # 1).
    change (inject_Z (9 * 10 ^ 18 + 10 ^ 9)) with (9000000001000000000 # 1).
    change (inject_Z (9 * 10 ^ 9)) with (9000000000 # 1) in Hi. lra. }
  destruct (Qle_bool 0 ns) eqn:P; [|apply not_true_iff_false in P; by rewrite Qle_bool_iff in P].
  pose proof (Qle_ceiling ns) as C1.
  assert (0 <= Qceiling ns) as C2.
  { rewrite Zle_Qle. change (inject_Z 0) with 0%Q. lra. }
  pose proof (Qceiling_resp_le _ _ High) as C3. rewrite Qceiling_Z in C3.
  destruct (Z.ltb_spec (Qceiling ns) (- 2 ^ 63)); [lia|].
  destruct (Z.leb_spec (2 ^ 63) (Qceiling ns)); [lia|]. cbn [orb].
  destruct (Z.ltb_spec (Qceiling ns) 0); [lia|done].
Qed.

(** X26: a negative backoff ends the fetch at the first failed attempt.
    When the first attempt fails and [backoff_factor] plus the jitter is
    negative, [time.sleep] raises its [ValueError]: the fetch has sent
    one request, has not slept, and does not retry. *)
Theorem negative_backoff_ends_fetch w self url proxies st :
  0 < max_retries self ->
  attempt_fails w self url proxies (requests st) = true ->
  (inject_Z (- (9 * 10 ^ 9)) <= backoff_factor self + random_uniform w (draws st))%Q ->
  (backoff_factor self + random_uniform w (draws st) < 0)%Q ->
  _fetch_company_page w self url proxies st
  = (Raise (Exn ValueError "sleep length must be non-negative"),
     State (S (requests st)) (sleeps st) (S (draws st))).
Proof.
  intros M F Lo Hi. unfold _fetch_company_page. rewrite seqZ_cons by done.
  pose proof (fetch_attempts_step w self url proxies 1
                (seqZ (Z.succ 1) (Z.pred (max_retries self))) None st) as Step.
  cbn zeta in Step. rewrite F in Step. destruct Step as (last & _ & ->).
  unfold sleep_backoff, backoff_delay. change (1024 <=? 1 - 1) with false.
  change (inject_Z (2 ^ (1 - 1))) with 1%Q. cbv iota. cbn [draws requests sleeps].
  rewrite time_sleep_negative; [done|lra..].
Qed.

Lemma negative_backoff_ends_fetch_witness :
  _fetch_company_page sample_world (Scraper 15 3 (-1 # 1) "agent" None) down_url None
    initial_state
  = (Raise (Exn ValueError "sleep length must be non-negative"), State 1 [] 1).
Proof.
  apply (negative_backoff_ends_fetch sample_world (Scraper 15 3 (-1 # 1) "agent" None)
           down_url None initial_state).
  - done.
  - by vm_compute.
  - by vm_compute.
  - by vm_compute.
Defined.

(** The sleep after an attempt is accepted when the backoff factor is
    not negative, the jitter is a draw from [0, 0.5], and the longest
    backoff of the fetch is at most 9e9 seconds. *)
Lemma backoff_sleep_accepted self attempt jitter :
  (0 <= backoff_factor self)%Q ->
  (0 <= jitter <= 1 # 2)%Q ->
  1 <= attempt <= max_retries self ->
  max_retries self <= 1024 ->
  (backoff_factor self * inject_Z (2 ^ (max_retries self - 1)) <= inject_Z (9 * 10 ^ 9))%Q ->
  backoff_sleep self attempt jitter = Ok tt.
Proof.
  intros B J A M H. unfold backoff_sleep, backoff_delay.
  destruct (Z.leb_spec 1024 (attempt - 1)); [lia|]. cbn [bind].
  assert (0 <= inject_Z (2 ^ (attempt - 1)))%Q as P.
  { change 0%Q with (inject_Z 0). rewrite <- Zle_Qle. apply Z.pow_nonneg. lia. }
  assert (inject_Z (2 ^ (attempt - 1)) <= inject_Z (2 ^ (max_retries self - 1)))%Q as Le.
  { rewrite <- Zle_Qle. apply Z.pow_le_mono_r; lia. }
  assert (backoff_factor self * inject_Z (2 ^ (attempt - 1))
          <= backoff_factor self * inject_Z (2 ^ (max_retries self - 1)))%Q as Le'.
  { rewrite !(Qmult_comm (backoff_factor self)). by apply Qmult_le_compat_r. }
  assert (0 <= backoff_factor self * inject_Z (2 ^ (attempt - 1)))%Q as P'.
  { by apply Qmult_le_0_compat. }
  apply time_sleep_accepts; lra.
Qed.

(** X27: with a backoff factor that is not negative, a jitter drawn from
    [0, 0.5], at most 1024 attempts and a longest backoff of at most 9e9
    seconds, a fetch whose every attempt fails sends [max_retries]
    requests and sleeps after each of them, the last one included,
    before it raises. *)
Theorem exhausted_fetch_sleeps_every_time w self url proxies st :
  (0 <= backoff_factor self)%Q ->
  (forall n, 0 <= random_uniform w n <= 1 # 2)%Q ->
  max_retries self <= 1024 ->
  (backoff_factor self * inject_Z (2 ^ (max_retries self - 1)) <= inject_Z (9 * 10 ^ 9))%Q ->
  (forall i, (i < Z.to_nat (max_retries self))%nat ->
             attempt_fails w self url proxies (requests st + i) = true) ->
  let run := _fetch_company_page w self url proxies st in
  returns run.1 = false
  /\ requests run.2 = (requests st + Z.to_nat (max_retries self))%nat
  /\ sleeps run.2
     = (sleeps st
        ++ map (backoff_entry w self (draws st)) (seq 0 (Z.to_nat (max_retries self))))%list.
Proof.
  intros B J M H F. unfold _fetch_company_page. rewrite seqZ_to_nat.
  destruct (fetch_attempts_trace w self url proxies (Z.to_nat (max_retries self))
              0 None st) as (k & L & A & Sq & O).
  change (Z.of_nat 0 + 1) with 1 in *. cbn [Nat.add] in *. cbn zeta.
  destruct O as [(-> & R & exc & -> & _)|(Lt & R & E)]; [done|].
  exfalso. rewrite backoff_sleep_accepted in E by (try done; lia).
  specialize (F k Lt). unfold ends_at in E. unfold attempt_fails in F.
  destruct (session_get w (requests st + k) url (timeout self) proxies) as [resp|exc].
  - destruct (_ && _); [done|]. by destruct E as (? & [=] & _).
  - rewrite F in E. by destruct E as (? & [=] & _).
Qed.

Lemma exhausted_fetch_sleeps_every_time_witness :
  let run := _fetch_company_page sample_world default_scraper down_url None initial_state in
  requests run.2 = 3%nat
  /\ sleeps run.2 = map (backoff_entry sample_world default_scraper 0) [0; 1; 2]%nat.
Proof.
  destruct (exhausted_fetch_sleeps_every_time sample_world default_scraper down_url None
              initial_state) as (_ & R & S).
  - by vm_compute.
  - intros n. by vm_compute.
  - by vm_compute.
  - by vm_compute.
  - intros i _. by vm_compute.
  - split; [exact R|exact S].
Defined.

(** ** The scan of the structured data *)

Lemma apply_json_ld_other_type node (t : record) :
  candidate_entry (VDict node) = false -> _apply_json_ld node t = Ok t.
Proof. unfold _apply_json_ld. cbn [candidate_entry]. by intros ->. Qed.

(** X15: the entries of a decoded list that are not objects, and the
    objects whose [@type] names no organization, corporation or company,
    leave no trace: the scan of the list is the scan of its candidate
    objects. *)
Theorem apply_entries_candidates entries (t : record) :
  apply_entries (List.filter candidate_entry entries) t = apply_entries entries t.
Proof.
  revert t. induction entries as [|entry entries IH]; intros t; [done|].
  cbn [List.filter]. destruct (candidate_entry entry) eqn:C.
  - destruct entry; try done. cbn [apply_entries].
    destruct (_apply_json_ld entries0 t) as [t1|]; cbn [bind]; [apply IH|done].
  - destruct entry; cbn [apply_entries]; try apply IH.
    rewrite apply_json_ld_other_type by done. apply IH.
Qed.

Lemma inert_script_skipped w txt :
  inert_script w txt = true ->
  load_script w txt = Ok None
  \/ exists parsed, load_script w txt = Ok (Some parsed)
       /\ match parsed with VList _ | VDict _ => False | _ => True end.
Proof.
  unfold inert_script, load_script. destruct (Str.nonempty txt); cbn [negb orb]; [|by left].
  destruct (json_loads w txt) as [parsed|exc]; cbn [bind try_except existsb].
  - intros H. right. exists parsed. by destruct parsed.
  - intros ->. by left.
Qed.

(** X16: a script whose text is empty, or fails to decode with a
    [JSONDecodeError], or decodes to a scalar, is passed over: the scan
    of a document is the scan of its other scripts. *)
Theorem apply_scripts_skips_inert w scripts (t : record) :
  apply_scripts w (List.filter (fun txt => negb (inert_script w txt)) scripts) t
  = apply_scripts w scripts t.
Proof.
  revert t. induction scripts as [|txt scripts IH]; intros t; [done|].
  cbn [List.filter]. destruct (inert_script w txt) eqn:I; cbn [negb].
  - cbn [apply_scripts].
    destruct (inert_script_skipped _ _ I) as [-> |(parsed & -> & H)]; cbn [bind];
      [apply IH|]. destruct parsed; try done; apply IH.
  - cbn [apply_scripts]. destruct (load_script w txt) as [[parsed|]|]; cbn [bind];
      [|apply IH|done].
    destruct parsed; try apply IH.
    + destruct (apply_entries items t); cbn [bind]; [apply IH|done].
    + destruct (_apply_json_ld entries t); cbn [bind]; [apply IH|done].
Qed.

Lemma apply_entries_app entries1 entries2 (t : record) :
  apply_entries (entries1 ++ entries2) t
  = (t1 <- apply_entries entries1 t ;; apply_entries entries2 t1).
Proof.
  revert t. induction entries1 as [|entry entries1 IH]; intros t; [done|].
  cbn [app apply_entries]. destruct entry; try apply IH.
  destruct (_apply_json_ld entries t); cbn [bind]; [apply IH|done].
Qed.

(** X17: the last candidate object decides the name: when the last entry
    of a list is a candidate with a name that is not blank, the scan of
    the list returns with that name, normalized, as [company_name],
    whatever the earlier entries and the record held. *)
Theorem last_named_node_decides_name entries node name (t : record) :
  candidate_entry (VDict node) = true ->
  clean_text (Py.dict_get node "name") = Some name ->
  returns_with (apply_entries (entries ++ [VDict node]) t) "company_name" (VStr name).
Proof.
  intros C N. rewrite apply_entries_app.
  destruct (apply_entries_written entries) as [nodes H].
  destruct (H t) as [t1 [-> _]]. cbn [bind apply_entries].
  destruct (apply_json_ld_lookup node t1) as [t2 [-> L]]. cbn [bind returns_with].
  rewrite L. unfold ld_offer. cbn [candidate_entry] in C. rewrite C.
  cbn [negb]. decide_fields. by rewrite N.
Qed.

Lemma last_named_node_decides_name_witness :
  returns_with (apply_entries [VDict acme_node; VStr "x"; VDict branch_node;
                               VDict [("@type", VStr "Corporation");
                                      ("name", VStr " Acme  Holdings ")]]
                  (empty_company acme_url))
    "company_name" (VStr "Acme Holdings").
Proof.
  apply (last_named_node_decides_name [VDict acme_node; VStr "x"; VDict branch_node]);
    by vm_compute.
Defined.

(** ** The fields of a parsed record *)

Lemma refines_refl (t : record) : refines t t.
Proof. intros key. by left. Qed.

Lemma refines_trans (t t1 t2 : record) : refines t t1 -> refines t1 t2 -> refines t t2.
Proof.
  intros H1 H2 key. destruct (H2 key) as [E|H]; [|by right].
  rewrite E. apply H1.
Qed.

Lemma refines_insert field v (t : record) :
  field_kind field v -> refines t (<[field := v]> t).
Proof.
  intros K key. destruct (decide (key = field)) as [->|Hne].
  - right. exists v. by rewrite lookup_insert_eq.
  - left. by apply lookup_insert_ne.
Qed.

Lemma field_kind_text key s :
  ~ In key ["company_followers_on_linkedin"; "company_employees_on_linkedin";
            "company_founded"] ->
  field_kind key (VStr s).
Proof.
  intros H. right. cbn [In] in H.
  repeat match goal with
         | |- context [String.eqb key ?f] =>
             destruct (String.eqb_spec key f) as [->|?]; [tauto|]
         end.
  by exists s.
Qed.

Lemma field_kind_opt_str key o :
  ~ In key ["company_followers_on_linkedin"; "company_employees_on_linkedin";
            "company_founded"] ->
  field_kind key (opt_str o).
Proof. destruct o; [apply field_kind_text|by left]. Qed.

Ltac text_field := cbn [In]; intuition congruence.

Lemma address_offer_kind node key v :
  address_offer node key = Some v -> field_kind key v.
Proof.
  unfold address_offer. destruct (address_object node); try done.
  repeat match goal with
         | |- context [String.eqb key ?f] =>
             destruct (String.eqb_spec key f) as [->|?];
               [intros H; by_injection H; apply field_kind_opt_str; text_field|]
         end.
  done.
Qed.

(** What a node has for a field is of the kind of the field. *)
Lemma ld_offer_kind node key v : ld_offer node key = Some v -> field_kind key v.
Proof.
  unfold ld_offer. destruct (negb _); [done|].
  field_case key "company_name".
  { destruct (clean_text _); [|done]. intros [= <-]. apply field_kind_text. text_field. }
  field_case key "company_website".
  { destruct (clean_text _); [|done]. intros [= <-]. apply field_kind_text. text_field. }
  field_case key "company_about_us".
  { destruct (clean_text _); [|done]. intros [= <-]. apply field_kind_text. text_field. }
  field_case key "company_employees_on_linkedin".
  { unfold employees_offer. destruct (Py.truthy _) eqn:T; [|done]. intros [= <-].
    destruct (safe_int_cases (Py.or (Py.dict_get node "numberOfEmployees")
                                    (Py.dict_get node "employees")))
      as [E|[[z E]|[b [Eb E]]]]; rewrite E; cbn [value_of].
    - by left.
    - right. left. by exists z.
    - rewrite Eb in T. cbn in T. subst b. right. by right. }
  field_case key "company_logo".
  { unfold logo_offer. intros H.
    destruct (Py.dict_get node "logo"); by_injection H;
      apply field_kind_opt_str; text_field. }
  field_case key "company_industry".
  { destruct (clean_text _); [|done]. intros [= <-]. apply field_kind_text. text_field. }
  field_case key "company_founded".
  { unfold founded_offer.
    destruct (extract_year_in_range
                (safe_str (Py.or (Py.dict_get node "foundingDate")
                                 (Py.dict_get node "foundingYear"))))
      as [E|(year & E & R)]; rewrite E; cbn [value_of Py.truthy]; [done|].
    destruct (negb _); [|done]. intros [= <-]. right. by exists year. }
  field_case key "company_size".
  { unfold size_offer. destruct (Py.truthy _); [|done]. intros H. by_injection H.
    apply field_kind_opt_str. text_field. }
  field_case key "company_headquarters".
  { unfold headquarters_offer. intros H.
    destruct (Py.or _ _); try done; by_injection H;
      apply field_kind_opt_str; text_field. }
  field_case key "company_specialties".
  { unfold specialties_offer. intros H.
    destruct (Py.or _ _); try done; by_injection H;
      [apply field_kind_opt_str|apply field_kind_text]; text_field. }
  apply address_offer_kind.
Qed.

Lemma meta_name_from_title_refines soup (t : record) :
  refines t (meta_name_from_title soup t).
Proof.
  unfold meta_name_from_title.
  repeat match goal with
         | |- refines t (match ?x with _ => _ end) => destruct x
         end; try apply refines_refl.
  apply refines_insert, field_kind_text. text_field.
Qed.

Lemma meta_description_refines soup (t : record) :
  refines t (meta_description soup t).
Proof.
  unfold meta_description.
  destruct (unset t _); [|apply refines_refl].
  destruct (_find_meta_content soup _) as [desc|]; [|apply refines_refl].
  assert (refines t (<["company_about_us" := opt_str (clean_text (VStr desc))]> t)) as H
    by (apply refines_insert, field_kind_opt_str; text_field).
  destruct (unset _ _); [|done].
  eapply refines_trans; [exact H|].
  apply refines_insert, field_kind_opt_str. text_field.
Qed.

Lemma meta_logo_refines soup (t : record) : refines t (meta_logo soup t).
Proof.
  unfold meta_logo.
  repeat match goal with
         | |- refines t (match ?x with _ => _ end) => destruct x
         end; try apply refines_refl.
  apply refines_insert, field_kind_opt_str. text_field.
Qed.

Lemma meta_cover_refines soup (t : record) : refines t (meta_cover soup t).
Proof.
  unfold meta_cover.
  repeat match goal with
         | |- refines t (match ?x with _ => _ end) => destruct x
         end; try apply refines_refl.
  apply refines_insert, field_kind_opt_str. text_field.
Qed.

Lemma meta_slogan_refines soup (t : record) : refines t (meta_slogan soup t).
Proof.
  unfold meta_slogan.
  repeat match goal with
         | |- refines t (match ?x with _ => _ end) => destruct x
         end; try apply refines_refl.
  apply refines_insert, field_kind_text. text_field.
Qed.

Lemma meta_counter_refines body_text field keyword (t : record) :
  In field ["company_followers_on_linkedin"; "company_employees_on_linkedin"] ->
  exists t', meta_counter body_text field keyword t = Ok t' /\ refines t t'.
Proof.
  intros F. unfold meta_counter, _extract_number_near_keyword.
  destruct (unset t field); [|exists t; split; [done|apply refines_refl]].
  destruct (number_before_cases (Str.lower keyword) (Str.split_ws body_text) None)
    as [-> |[z ->]]; cbn [bind].
  - exists t. split; [done|apply refines_refl].
  - eexists. split; [done|]. apply refines_insert. right.
    destruct F as [<-|[<-|[]]]; decide_fields; eauto.
Qed.

Lemma parse_from_meta_and_title_refines soup (t : record) :
  exists t', _parse_from_meta_and_title soup t = Ok t' /\ refines t t'.
Proof.
  unfold _parse_from_meta_and_title.
  set (t5 := meta_slogan soup _).
  assert (refines t t5) as H5.
  { subst t5.
    eapply refines_trans; [|apply meta_slogan_refines].
    eapply refines_trans; [|apply meta_cover_refines].
    eapply refines_trans; [|apply meta_logo_refines].
    eapply refines_trans; [|apply meta_description_refines].
    apply meta_name_from_title_refines. }
  destruct (Str.nonempty (get_text soup)); [|by exists t5].
  destruct (meta_counter_refines (get_text soup) "company_followers_on_linkedin"
              "followers" t5) as [t6 [-> H6]]; [by left|]. cbn [bind].
  destruct (meta_counter_refines (get_text soup) "company_employees_on_linkedin"
              "employees" t6) as [t7 [-> H7]]; [right; by left|].
  exists t7. split; [done|].
  eapply refines_trans; [|exact H7]. eapply refines_trans; [exact H5|exact H6].
Qed.

(** X18: every field of a parsed record holds a value of its kind:
    [company_followers_on_linkedin] an integer,
    [company_employees_on_linkedin] an integer or [True],
    [company_founded] an integer from 1900 to 2099, any other field a
    string; or [None]. *)
Theorem parsed_fields_have_their_kind w html url r key v :
  _parse_company w html url = Ok r ->
  r !! key = Some v ->
  field_kind key v.
Proof.
  unfold _parse_company.
  destruct (make_soup w html) as [soup|]; [|done]. cbn [bind].
  destruct (_parse_from_json_ld w soup (empty_company url)) as [t1|] eqn:E1; [|done].
  cbn [bind]. destruct (parse_from_meta_and_title_refines soup t1) as [t2 [-> F]].
  cbn [bind]. intros [= <-] Hv.
  apply parse_from_json_ld_written in E1 as [nodes [W _]].
  destruct (F key) as [E|(v' & E & K)]; [|congruence].
  rewrite E, (W key) in Hv. revert v Hv.
  apply (writes_invariant _ _ (fun o => forall v, o = Some v -> field_kind key v)).
  - apply List.Forall_forall. intros offer [node [<- _]]%in_map_iff v' Hv v [= <-].
    by eapply ld_offer_kind.
  - intros v Hv. pose proof (empty_company_lookup _ _ _ Hv) as [-> | ->]; [by left|].
    right. revert Hv. unfold empty_company. rewrite lookup_insert_eqb.
    repeat match goal with
           | |- context [String.eqb key ?f] =>
               destruct (String.eqb_spec key f) as [->|?]; [by vm_compute|]
           end.
    intros _. by exists url.
Qed.

Lemma parsed_fields_have_their_kind_witness :
  field_kind "company_followers_on_linkedin" (VInt 1234).
Proof.
  assert (returns (_parse_company sample_world "<html>acme</html>" acme_url) = true)
    as R by (by vm_compute).
  assert (returns_with (_parse_company sample_world "<html>acme</html>" acme_url)
            "company_followers_on_linkedin" (VInt 1234)) as H by (by vm_compute).
  destruct (_parse_company sample_world "<html>acme</html>" acme_url) as [r|] eqn:E;
    [|done].
  exact (parsed_fields_have_their_kind _ _ _ _ _ _ E H).
Defined.

Lemma parse_company_untouched w html url r key :
  _parse_company w html url = Ok r ->
  ~ In key (ld_overwritten ++ ld_guarded) -> ~ In key meta_fields ->
  r !! key = empty_company url !! key.
Proof.
  unfold _parse_company.
  destruct (make_soup w html) as [soup|]; [|done]. cbn [bind].
  destruct (_parse_from_json_ld w soup (empty_company url)) as [t1|] eqn:E1; [|done].
  cbn [bind]. destruct (parse_from_meta_and_title_fills soup t1) as [t2 [-> F]].
  cbn [bind]. intros [= <-] Hld Hmeta.
  apply parse_from_json_ld_written in E1 as [nodes [W _]].
  rewrite (fills_other _ _ _ _ F) by done. rewrite (W key), writes_none; [done|].
  apply List.Forall_forall. intros offer [node [<- _]]%in_map_iff.
  destruct (ld_offer node key) eqn:E; [|done]. by apply ld_offer_fields in E.
Qed.

(** X19: no record of a batch gives an organization type: in a parsed
    record [company_organization_type] is [None], as nothing assigns it,
    and a skeleton has no such field. *)
Theorem organization_type_is_never_set w self urls proxy_group st :
  exists records st',
    scrape_profiles w self urls proxy_group st = (Ok records, st')
    /\ Forall (fun r => get r "company_organization_type" = VNone) records.
Proof.
  rewrite scrape_profiles_batch. eexists _, _. split; [done|].
  generalize (_resolve_proxies self proxy_group). intros proxies.
  revert st. induction urls as [|url urls IH]; intros st; cbn [batch fst snd];
    constructor; [|apply IH].
  unfold record_for.
  destruct (html <- _ ;; _parse_company w html url) as [company|exc] eqn:E; [|done].
  destruct (_fetch_company_page w self url proxies st).1 as [html|]; [|done].
  cbn [bind] in E. unfold get.
  rewrite (parse_company_untouched _ _ _ _ _ E) by (cbn [In app ld_overwritten ld_guarded
    meta_fields]; intuition congruence).
  done.
Qed.

Lemma meta_pass_description soup (t : record) :
  exists t', _parse_from_meta_and_title soup t = Ok t'
    /\ forall key,
         In key ["company_about_us"; "company_twitter_description"] ->
         t' !! key = meta_description soup (meta_name_from_title soup t) !! key.
Proof.
  unfold _parse_from_meta_and_title.
  set (t2 := meta_description soup _).
  set (t5 := meta_slogan soup _).
  assert (forall key, In key ["company_about_us"; "company_twitter_description"] ->
                      t5 !! key = t2 !! key) as H5.
  { intros key I. subst t5.
    rewrite (fills_other _ _ _ _ (meta_slogan_fills _ _)) by (cbn [In] in *; intuition congruence).
    rewrite (fills_other _ _ _ _ (meta_cover_fills _ _)) by (cbn [In] in *; intuition congruence).
    rewrite (fills_other _ _ _ _ (meta_logo_fills _ _)) by (cbn [In] in *; intuition congruence).
    done. }
  destruct (Str.nonempty (get_text soup)); [|by exists t5].
  destruct (meta_counter_fills (get_text soup) "company_followers_on_linkedin"
              "followers" t5) as [t6 [-> H6]]. cbn [bind].
  destruct (meta_counter_fills (get_text soup) "company_employees_on_linkedin"
              "employees" t6) as [t7 [-> H7]].
  exists t7. split; [done|]. intros key I.
  rewrite (fills_other _ _ _ _ H7), (fills_other _ _ _ _ H6)
    by (cbn [In] in *; intuition congruence).
  by apply H5.
Qed.

(** X20: [company_twitter_description] never has a source of its own: in a
    parsed record it is [None] or a copy of [company_about_us]. *)
Theorem twitter_description_copies_about_us w html url r :
  _parse_company w html url = Ok r ->
  r !! "company_twitter_description" = Some VNone
  \/ r !! "company_twitter_description" = r !! "company_about_us".
Proof.
  unfold _parse_company.
  destruct (make_soup w html) as [soup|]; [|done]. cbn [bind].
  destruct (_parse_from_json_ld w soup (empty_company url)) as [t1|] eqn:E1; [|done].
  cbn [bind]. destruct (meta_pass_description soup t1) as [t2 [-> H]].
  cbn [bind]. intros [= <-].
  rewrite !H by (cbn [In]; tauto).
  apply parse_from_json_ld_written in E1 as [nodes [W _]].
  assert (t1 !! "company_twitter_description" = Some VNone) as T1.
  { rewrite (W _), writes_none; [done|].
    apply List.Forall_forall. intros offer [node [<- _]]%in_map_iff.
    destruct (ld_offer node _) eqn:E; [|done].
    apply ld_offer_fields in E. cbn [In app ld_overwritten ld_guarded] in E.
    intuition congruence. }
  set (t1' := meta_name_from_title soup t1).
  assert (t1' !! "company_twitter_description" = Some VNone) as T1'.
  { subst t1'. rewrite (fills_other _ _ _ _ (meta_name_from_title_fills _ _)); [done|].
    cbn [In]. intuition congruence. }
  unfold meta_description.
  destruct (unset t1' "company_about_us"); [|by left].
  destruct (_find_meta_content soup _) as [desc|]; [|by left].
  assert (unset (<["company_about_us" := opt_str (clean_text (VStr desc))]> t1')
            "company_twitter_description" = true) as ->.
  { unfold unset, get. rewrite lookup_insert_ne by done. by rewrite T1'. }
  right. rewrite lookup_insert_eq, lookup_insert_ne by done. by rewrite lookup_insert_eq.
Qed.

Lemma twitter_description_copies_about_us_witness :
  returns_with (_parse_company sample_world "<html>acme</html>" acme_url)
    "company_twitter_description" (VStr "Acme builds rockets.").
Proof.
  assert (returns (_parse_company sample_world "<html>acme</html>" acme_url) = true)
    as R by (by vm_compute).
  assert (returns_with (_parse_company sample_world "<html>acme</html>" acme_url)
            "company_about_us" (VStr "Acme builds rockets.")) as A by (by vm_compute).
  assert (returns_with (_parse_company sample_world "<html>acme</html>" acme_url)
            "company_twitter_description" (VStr "Acme builds rockets.")) as T
    by (by vm_compute).
  destruct (_parse_company sample_world "<html>acme</html>" acme_url) as [r|] eqn:E;
    [|done].
  destruct (twitter_description_copies_about_us _ _ _ _ E) as [H|H].
  - exact T.
  - cbn [returns_with] in *. by rewrite H.
Defined.

(** ** Batches *)

(** X21: a batch over [urls ++ more] is the batch over [urls] followed by
    the batch over [more] from the state the first one ends in: the
    records are those of the first, then those of the second. *)
Theorem scrape_profiles_app w self urls more proxy_group st :
  exists records records' st1 st2,
    scrape_profiles w self urls proxy_group st = (Ok records, st1)
    /\ scrape_profiles w self more proxy_group st1 = (Ok records', st2)
    /\ scrape_profiles w self (urls ++ more) proxy_group st
       = (Ok (records ++ records')%list, st2).
Proof.
  rewrite !scrape_profiles_batch. eexists _, _, _, _.
  split; [done|]. rewrite scrape_profiles_batch. split; [done|].
  by rewrite batch_app.
Qed.

Lemma fetch_requests_bound w self url proxies st :
  (requests st <= requests (_fetch_company_page w self url proxies st).2
   <= requests st + Z.to_nat (max_retries self))%nat
  /\ (length (sleeps st) <= length (sleeps (_fetch_company_page w self url proxies st).2)
      <= length (sleeps st) + Z.to_nat (max_retries self))%nat.
Proof.
  unfold _fetch_company_page. rewrite seqZ_to_nat.
  destruct (fetch_attempts_trace w self url proxies (Z.to_nat (max_retries self))
              0 None st) as (k & L & _ & Sq & O).
  change (Z.of_nat 0 + 1) with 1 in *. cbn zeta in *.
  apply (f_equal (@length _)) in Sq. rewrite length_app, length_map, length_seq in Sq.
  destruct O as [(-> & R & _)|(Lt & R & _)]; lia.
Qed.

(** X22: a batch over [n] URLs sends at most [n * max_retries] requests
    and sleeps at most as many times; it neither forgets a request nor a
    sleep that was recorded before. *)
Theorem batch_requests_bound w self urls proxy_group st :
  let st' := (scrape_profiles w self urls proxy_group st).2 in
  (requests st <= requests st'
   <= requests st + length urls * Z.to_nat (max_retries self))%nat
  /\ (length (sleeps st) <= length (sleeps st')
      <= length (sleeps st) + length urls * Z.to_nat (max_retries self))%nat.
Proof.
  rewrite scrape_profiles_batch. cbn [snd].
  generalize (_resolve_proxies self proxy_group). intros proxies.
  revert st. induction urls as [|url urls IH]; intros st; cbn [batch fst snd length].
  - lia.
  - pose proof (fetch_requests_bound w self url proxies st) as B.
    specialize (IH (_fetch_company_page w self url proxies st).2). lia.
Qed.

(** ** The runner's inputs *)

Lemma lower_char_idempotent a : Str.lower_char (Str.lower_char a) = Str.lower_char a.
Proof. by_cases_on_char a. Qed.

Lemma lower_idempotent s : Str.lower (Str.lower s) = Str.lower s.
Proof.
  induction s as [|a s IH]; simpl; [done|]. by rewrite lower_char_idempotent, IH.
Qed.

(** X23: the formats [resolve_output_formats] returns are in lower case,
    and there is at least one unless the list given in the input, or
    else in the settings, is empty: an empty list is taken as it is, not
    replaced by the default. *)
Theorem output_formats_are_lowercase input_data settings cli_formats :
  Forall (fun format => Str.lower format = format)
    (resolve_output_formats input_data settings cli_formats)
  /\ (resolve_output_formats input_data settings cli_formats = [] ->
      assoc_get input_data "output_formats" = Some (VList [])
      \/ exists output_cfg,
           assoc_get settings "output" = Some (VDict output_cfg)
           /\ Py.dict_get output_cfg "formats" = VList []).
Proof.
  assert (forall (A : Type) (f : A -> string) l,
            Forall (fun format => Str.lower format = format)
              (map (fun x => Str.lower (f x)) l)) as L.
  { intros A f l. apply List.Forall_forall. intros format [x [<- _]]%in_map_iff.
    apply lower_idempotent. }
  assert (Forall (fun format => Str.lower format = format) ["json"; "csv"]) as D
    by (by repeat constructor).
  unfold resolve_output_formats.
  set (from_input :=
         match assoc_get input_data "output_formats" with
         | Some (VList formats) => _
         | _ => _
         end).
  assert (Forall (fun format => Str.lower format = format) from_input
          /\ (from_input = [] ->
              assoc_get input_data "output_formats" = Some (VList [])
              \/ exists output_cfg,
                   assoc_get settings "output" = Some (VDict output_cfg)
                   /\ Py.dict_get output_cfg "formats" = VList [])) as H.
  { subst from_input.
    destruct (assoc_get input_data "output_formats") as [[| | | | |formats|]|].
    6:{ split; [apply L|]. destruct formats; [by left|done]. }
    all: destruct (assoc_get settings "output") as [[| | | | | |output_cfg]|];
      try (by split).
    all: destruct (Py.dict_get output_cfg "formats") as [| | | | |formats|] eqn:F;
      try (by split).
    all: split; [apply L|]; destruct formats; [|done]; right; by exists output_cfg. }
  destruct cli_formats as [[|format formats]|]; try exact H.
  split; [apply (L _ (fun x => x))|done].
Qed.

Lemma output_formats_are_lowercase_witness :
  assoc_get [("output_formats", VList [])] "output_formats" = Some (VList [])
  \/ exists output_cfg,
       assoc_get [] "output" = Some (VDict output_cfg)
       /\ Py.dict_get output_cfg "formats" = VList [].
Proof.
  apply (proj2 (output_formats_are_lowercase [("output_formats", VList [])] [] (Some []))).
  by vm_compute.
Defined.

(** X24: the URLs that [main] hands to [scrape_profiles] are at least
    one, each of them not empty and with no blank at either end; and the
    proxy group it hands over, when there is one, is such a string. *)
Theorem runner_inputs_are_trimmed input_data :
  (forall urls, input_urls input_data = Some urls ->
     urls <> []
     /\ Forall (fun url => Str.nonempty url = true /\ Str.strip url = url) urls)
  /\ (forall group, input_proxy_group input_data = Some group ->
        Str.nonempty group = true /\ Str.strip group = group).
Proof.
  split.
  - intros urls. unfold input_urls.
    destruct (Py.or _ _) as [| | | | |[|u us]|]; try done.
    destruct (List.filter _ _) as [|url urls'] eqn:E; [done|].
    intros [= <-]. split; [done|]. rewrite <- E.
    apply List.Forall_forall. intros url' [[x [<- _]]%in_map_iff N]%filter_In.
    split; [done|apply strip_idempotent].
  - intros group. unfold input_proxy_group.
    destruct (Py.dict_get input_data "proxy_group"); try done.
    all: destruct (Str.nonempty _) eqn:N; [|done]; intros [= <-];
      split; [done|apply strip_idempotent].
Qed.

Lemma runner_inputs_are_trimmed_witness :
  Forall (fun url => Str.nonempty url = true /\ Str.strip url = url)
    [acme_url; "42"].
Proof.
  apply (proj1 (runner_inputs_are_trimmed
                  [("company_profile_urls", VList []);
                   ("urls", VList [VStr (" " +:+ acme_url); VStr "  "; VInt 42])])).
  by vm_compute.
Defined.

(** ** Integers written by [str] *)

(** A character of a literal written by [str]: a digit or the sign. *)
Lemma literal_text_plain (F : ascii -> bool) s :
  (forall a, F a = true -> negb (Str.isdecimal a || Ascii.eqb a "-") = true) ->
  any_char (fun a => negb (Str.isdecimal a || Ascii.eqb a "-")) s = false ->
  any_char F s = false.
Proof. apply any_char_impl. Qed.

Lemma str_of_int_chars z :
  any_char (fun a => negb (Str.isdecimal a || Ascii.eqb a "-")) (Py.str_of_int z) = false.
Proof.
  assert (forall d, any_char (fun a => negb (Str.isdecimal a || Ascii.eqb a "-"))
                      (NilZero.string_of_uint d) = false) as H.
  { intros d. destruct d; [done|..]; cbn [NilZero.string_of_uint];
      (eapply any_char_impl; [|apply uint_is_digits]);
      intros a; by_cases_on_char a. }
  unfold Py.str_of_int. destruct z; cbn [Z.to_int NilZero.string_of_int]; try apply H.
  all: cbn [any_char String.append]; by rewrite H.
Qed.

(** X25: [safe_int] reads back what [str] writes: the decimal text of an
    integer, of at most 4300 characters, coerces to that integer. *)
Theorem safe_int_reads_str z :
  (String.length (Py.str_of_int z) <= 4300)%nat ->
  safe_int (VStr (Py.str_of_int z)) = Ok (VInt z).
Proof.
  intros L. pose proof (str_of_int_chars z) as C.
  unfold safe_int, int_of_text, Str.strip. cbn [Py.str].
  rewrite remove_none
    by (eapply literal_text_plain; [|exact C]; intros a; by_cases_on_char a).
  rewrite lstrip_by_none, rstrip_by_none
    by (eapply literal_text_plain; [|exact C]; intros a; by_cases_on_char a).
  unfold Py.int.
  rewrite to_ascii_none
    by (eapply literal_text_plain; [|exact C]; intros a; by_cases_on_char a).
  rewrite lstrip_by_none, rstrip_by_none
    by (eapply literal_text_plain; [|exact C]; intros a; by_cases_on_char a).
  clear C. unfold Py.str_of_int in *. destruct z as [|p|p].
  - done.
  - cbn [Z.to_int NilZero.string_of_int NilZero.string_of_uint] in *.
    pose proof (DecimalPos.Unsigned.to_uint_nonnil p) as N.
    assert (NilZero.string_of_uint (Pos.to_uint p)
            = NilEmpty.string_of_uint (Pos.to_uint p)) as E
      by (by destruct (Pos.to_uint p)).
    rewrite E in *. rewrite uint_length in L.
    assert (Py.split_sign (NilEmpty.string_of_uint (Pos.to_uint p))
            = (false, NilEmpty.string_of_uint (Pos.to_uint p))) as ->
      by (by destruct (Pos.to_uint p)).
    assert (Str.nonempty (NilEmpty.string_of_uint (Pos.to_uint p)) = true) as ->
      by (by destruct (Pos.to_uint p)).
    cbn [negb bind]. rewrite read_uint_start, read_uint by done.
    rewrite DecimalPos.Unsigned.of_to. cbn [Nat.add]. unfold Py.max_str_digits.
    destruct (Nat.ltb_spec 4300 (Decimal.nb_digits (Pos.to_uint p))); [lia|done].
  - cbn [Z.to_int NilZero.string_of_int NilZero.string_of_uint] in *.
    pose proof (DecimalPos.Unsigned.to_uint_nonnil p) as N.
    assert (NilZero.string_of_uint (Pos.to_uint p)
            = NilEmpty.string_of_uint (Pos.to_uint p)) as E
      by (by destruct (Pos.to_uint p)).
    rewrite E in *. cbn [String.length] in L. rewrite uint_length in L.
    cbn [Str.nonempty negb bind Py.split_sign Ascii.eqb Bool.eqb].
    change (Ascii.eqb "-" "-") with true. cbv iota.
    rewrite read_uint_start, read_uint by done.
    rewrite DecimalPos.Unsigned.of_to. cbn [Nat.add]. unfold Py.max_str_digits.
    destruct (Nat.ltb_spec 4300 (Decimal.nb_digits (Pos.to_uint p))); [lia|done].
Qed.

Lemma safe_int_reads_str_witness : safe_int (VStr (Py.str_of_int (-10001))) = Ok (VInt (-10001)).
Proof. apply safe_int_reads_str. vm_compute. lia. Defined.
